(** * clair_veo3: the Express relay and the React job poller

    A shallow embedding of
    - the relay ([src/unnamed/part_000]): the three Express handlers
      [POST /api/veo/generate], [GET /api/veo/status/:operationId] and
      [POST /api/veo/cancel/:operationId];
    - the job poller ([src/frontend/src/App.tsx]): the state of the [App]
      component, its polling effect and its three click handlers.

    JavaScript values are modelled as they are at run time (JSON trees with
    [undefined]), so that truthiness tests and reads of absent properties
    behave as in the source. *)

From Stdlib Require Import List String Ascii ZArith Bool Lia.
From Stdlib Require Import DecimalString.
Import ListNotations.

Local Open Scope string_scope.
Local Open Scope Z_scope.

Set Warnings "-register-all,-notation-for-abbreviation".

(** ** JavaScript values *)

Module JS.

(** JSON data plus [undefined].  The numbers that occur in this program
    (durations in seconds from a range input, [Date.now()] milliseconds, the
    progress counter) are integers.  A string holds the UTF-8 bytes of its
    text. *)
Inductive value : Type :=
| VUndef
| VNull
| VBool (b : bool)
| VNum (n : Z)
| VStr (s : string)
| VArr (l : list value)
| VObj (fs : list (string * value)).

Definition obj : Type := list (string * value).

(** [ToBoolean]: what [if (v)], [!v], [a ? b : c] and [a || b] test. *)
Definition truthy (v : value) : bool :=
  match v with
  | VUndef | VNull => false
  | VBool b => b
  | VNum n => negb (n =? 0)
  | VStr s => negb (s =? "")%string
  | VArr _ | VObj _ => true
  end.

(** [v == null]: reading a property of such a value, or destructuring it,
    throws a [TypeError]. *)
Definition nullish (v : value) : bool :=
  match v with
  | VUndef | VNull => true
  | _ => false
  end.

(** Property lookup in an object: the first binding of the key. *)
Fixpoint lookup (k : string) (fs : obj) : value :=
  match fs with
  | [] => VUndef
  | (k', v) :: fs' => if (k =? k')%string then v else lookup k fs'
  end.

(** [v.k] (or the binding [k] of a destructuring pattern) for a value that is
    not nullish.  The keys this program reads ([done], [response], [error],
    [prompt], [operation], [name], ...) are own properties of objects only. *)
Definition get (v : value) (k : string) : value :=
  match v with
  | VObj fs => lookup k fs
  | _ => VUndef
  end.

(** [`${n}`] for an integer. *)
Definition show_Z (n : Z) : string :=
  NilZero.string_of_int (Z.to_int n).

(** [`${x}`] for [process.env.X], a string or [undefined]. *)
Definition show_env (x : option string) : string :=
  match x with
  | Some s => s
  | None => "undefined"
  end.

(** What an [await] yields: the fulfilled value, or the thrown rejection. *)
Inductive awaited (A : Type) : Type :=
| Fulfilled (a : A)
| Rejected (e : value).
Arguments Fulfilled {A} a.
Arguments Rejected {A} e.

End JS.
Import JS.

(** ** The relay (Express handlers) *)

Module Relay.

(** The job status strings the relay emits. *)
Inductive RelayStatus : Type := RUNNING | SUCCEEDED | FAILED.

Definition status_string (s : RelayStatus) : string :=
  match s with
  | RUNNING => "RUNNING"
  | SUCCEEDED => "SUCCEEDED"
  | FAILED => "FAILED"
  end.

(** An HTTP response written with [res.status(code).json(body)]
    ([res.json(body)] alone is a 200). *)
Record HttpReply : Type := mkReply { code : Z; body : value }.

(** What one run of a handler does: the response it sends, if it sends one,
    and the lines it writes with [console.error]. *)
Record Handled : Type := mkHandled {
  sent : option HttpReply;
  logged : list string
}.

Definition reply (c : Z) (b : value) : Handled :=
  {| sent := Some (mkReply c b); logged := [] |}.

(** A [catch (error) { console.error(label, error); }] block: it logs and
    sends nothing. *)
Definition caught (label : string) : Handled :=
  {| sent := None; logged := [label] |}.

Section Handlers.

(** [process.env.GOOGLE_CLOUD_PROJECT], [process.env.GOOGLE_CLOUD_LOCATION]. *)
Variable GOOGLE_CLOUD_PROJECT : option string.
Variable GOOGLE_CLOUD_LOCATION : option string.

Definition endpoint : string :=
  "projects/" ++ show_env GOOGLE_CLOUD_PROJECT ++ "/locations/"
    ++ show_env GOOGLE_CLOUD_LOCATION
    ++ "/publishers/google/models/veo-3.0-generate-preview".

(** The [request] object literal of the generate handler, from the
    destructured fields of [req.body]. *)
Definition generate_request (prompt aspectRatio durationSeconds generateAudio : value)
  : value :=
  VObj [("endpoint", VStr endpoint);
        ("instances",
         VArr [VObj [("prompt", prompt);
                     ("parameters",
                      VObj [("aspectRatio", aspectRatio);
                            ("durationSeconds", durationSeconds);
                            ("generateAudio", generateAudio)])]])].

(** The upstream request the handler builds for a body that passes the
    prompt check. *)
Definition upstream_request (reqBody : value) : value :=
  generate_request (get reqBody "prompt") (get reqBody "aspectRatio")
    (get reqBody "durationSeconds") (get reqBody "generateAudio").

(** [response.response.operation?.name]: [None] when the read throws. *)
Definition operation_name (response : value) : option value :=
  if nullish response then None
  else
    let inner := get response "response" in
    if nullish inner then None
    else
      let operation := get inner "operation" in
      Some (if nullish operation then VUndef else get operation "name").

(** The generate handler from the point where [generateContent] settles. *)
Definition generate_respond (outcome : awaited value) : Handled :=
  let label := "Error initiating video generation:" in
  match outcome with
  | Rejected _ => caught label
  | Fulfilled response =>
      match operation_name response with
      | None => caught label
      | Some operationId =>
          if negb (truthy operationId) then
            reply 500
              (VObj [("message", VStr "Failed to initiate video generation")])
          else reply 200 (VObj [("operationId", operationId)])
      end
  end.

(** [app.post('/api/veo/generate', ...)].  [generateContent] is the upstream
    call: what awaiting it yields for a given request. *)
Definition generate (generateContent : value -> awaited value) (reqBody : value)
  : Handled :=
  if nullish reqBody then caught "Error initiating video generation:"
  else
    let prompt := get reqBody "prompt" in
    let imageBase64 := get reqBody "imageBase64" in
    let mimeType := get reqBody "mimeType" in
    let aspectRatio := get reqBody "aspectRatio" in
    let durationSeconds := get reqBody "durationSeconds" in
    let generateAudio := get reqBody "generateAudio" in
    if negb (truthy prompt) then
      reply 400 (VObj [("message", VStr "Prompt is required")])
    else
      let request :=
        generate_request prompt aspectRatio durationSeconds generateAudio in
      generate_respond (generateContent request).

(** The URL of the upstream long-running operation. *)
Definition operation_url (operationId : string) : string :=
  "https://" ++ show_env GOOGLE_CLOUD_LOCATION
    ++ "-aiplatform.googleapis.com/v1/" ++ operationId.

(** The nested conditional that maps the operation to a status. *)
Definition operation_status (done opResponse : value) : RelayStatus :=
  if truthy done then
    if truthy opResponse then SUCCEEDED else FAILED
  else RUNNING.

(** [app.get('/api/veo/status/:operationId', ...)].  [upstream] is what
    awaiting [axios.get] (and the access token before it) yields: the
    [response.data] of a 2xx answer, or a rejection.  [now] is
    [Date.now()]. *)
Definition status (operationId : string) (now : Z) (upstream : awaited value)
  : Handled :=
  let label := "Error fetching video status:" in
  match upstream with
  | Rejected _ => caught label
  | Fulfilled data =>
      if nullish data then caught label
      else
        let done := get data "done" in
        let opResponse := get data "response" in
        let error := get data "error" in
        let status := operation_status done opResponse in
        let jobDetails :=
          VObj [("id", VStr ("job_" ++ show_Z now));
                ("operationId", VStr operationId);
                ("status", VStr (status_string status))] in
        reply 200 jobDetails
  end.

(** [app.post('/api/veo/cancel/:operationId', ...)]. *)
Definition cancel (operationId : string) (upstream : awaited value) : Handled :=
  match upstream with
  | Rejected _ => caught "Error cancelling video generation:"
  | Fulfilled _ => reply 200 (VObj [("message", VStr "Cancellation requested")])
  end.

End Handlers.

(** A generate request with an image attached, and the same without. *)
Definition body_with_image : value :=
  VObj [("prompt", VStr "a cat");
        ("imageBase64", VStr "data:image/png;base64,iVBORw0KGgo=");
        ("mimeType", VStr "image/png");
        ("aspectRatio", VStr "16:9");
        ("durationSeconds", VNum 8);
        ("generateAudio", VBool true)].

Definition body_without_image : value :=
  VObj [("prompt", VStr "a cat");
        ("imageBase64", VNull);
        ("mimeType", VNull);
        ("aspectRatio", VStr "16:9");
        ("durationSeconds", VNum 8);
        ("generateAudio", VBool true)].

(** An upstream that starts the operation [op_1] for any request. *)
Definition upstream_starts (request : value) : awaited value :=
  Fulfilled (VObj [("response", VObj [("operation", VObj [("name", VStr "op_1")])])]).

(** An upstream whose call fails. *)
Definition upstream_fails (request : value) : awaited value :=
  Rejected (VObj [("message", VStr "503 Service Unavailable")]).

(** Two finished upstream operations that differ in their result only. *)
Definition operation_with_result : value :=
  VObj [("name", VStr "op_1"); ("done", VBool true);
        ("response",
         VObj [("videos", VArr [VObj [("bytesBase64Encoded", VStr "AAAAIGZ0eXBpc29t")]])])].

Definition operation_with_other_result : value :=
  VObj [("name", VStr "op_1"); ("done", VBool true);
        ("response", VObj [("raiMediaFilteredCount", VNum 1)]);
        ("error", VObj [("message", VStr "filtered")])].

End Relay.

(** ** The job poller (the [App] component) *)

Module Poller.

(** [OperationStatus] of [types.ts].  At run time a status is its string. *)
Inductive OperationStatus : Type :=
| NOT_STARTED | GENERATING | RUNNING | SUCCEEDED | FAILED | FETCHING.

Definition status_string (s : OperationStatus) : string :=
  match s with
  | NOT_STARTED => "NOT_STARTED"
  | GENERATING => "GENERATING"
  | RUNNING => "RUNNING"
  | SUCCEEDED => "SUCCEEDED"
  | FAILED => "FAILED"
  | FETCHING => "FETCHING"
  end.

(** [v === "..."] against a status literal. *)
Definition is_status (v : value) (s : OperationStatus) : bool :=
  match v with
  | VStr x => (x =? status_string s)%string
  | _ => false
  end.

(** A [VideoJobDetails] object as it exists at run time: an object identity
    (what [Object.is] compares in the effect's dependency list) and the
    properties it really has.  A property that was never written reads as
    [undefined]. *)
Record Job : Type := mkJob { addr : nat; fields : obj }.

Definition job_get (j : Job) (k : string) : value := lookup k (fields j).

(** [initialImage] without the [File] handle, which is only displayed. *)
Record Image : Type := mkImage { base64 : string; mimeType : string }.

(** What an interval callback captured from the render whose effect created
    it: [currentJob] (non-null there) and [isFetchingStatus]. *)
Record Closure : Type := mkClosure {
  cl_currentJob : Job;
  cl_isFetchingStatus : bool
}.

(** A live interval of the browser's timer table. *)
Record Timer : Type := mkTimer { timer_id : nat; timer_closure : Closure }.

(** An [await] that has not settled yet, with what its continuation needs. *)
Inductive Pending : Type :=
| PendingInit (params : obj)          (* initiateVideoGeneration(params) *)
| PendingPoll (operationId : value)   (* fetchVideoStatus, interval callback *)
| PendingManual (operationId : value) (* fetchVideoStatus, handleFetchStatusManual *)
| PendingCancel (operationId : value) (* cancelVideoGeneration *).

(** How a service call settles: the object it resolves to, or an [Error]
    thrown, of which the handlers read [message] ([None]: [undefined]). *)
Inductive Settled : Type :=
| Resolved (result : obj)
| Threw (message : option string).

(** The component instance: its nine [useState] cells, the
    [pollingIntervalRef], the dependency values of the last run of the
    polling effect, and around it the browser: live intervals and service
    calls in flight.  [nextId] feeds interval ids, object identities and
    request ids. *)
Record World : Type := mkWorld {
  mounted : bool;
  currentJob : option Job;
  currentPrompt : string;
  initialImage : option Image;
  aspectRatio : string;
  duration : Z;
  generateAudio : bool;
  isLoading : bool;
  isFetchingStatus : bool;
  error : option string;
  pollingIntervalRef : option nat;
  effectDeps : option nat * bool;
  timers : list Timer;
  inflight : list (nat * Pending);
  nextId : nat
}.

Declare Scope poller_scope.
Notation "w |> f" := (f w) (at level 45, left associativity, only parsing)
  : poller_scope.
Local Open Scope poller_scope.

(** *** State setters.  React drops updates of an unmounted component. *)

Definition setCurrentJob (v : option Job) (w : World) : World :=
  if mounted w then
    mkWorld (mounted w) v (currentPrompt w) (initialImage w) (aspectRatio w)
      (duration w) (generateAudio w) (isLoading w) (isFetchingStatus w) (error w)
      (pollingIntervalRef w) (effectDeps w) (timers w) (inflight w) (nextId w)
  else w.

Definition setCurrentPrompt (v : string) (w : World) : World :=
  if mounted w then
    mkWorld (mounted w) (currentJob w) v (initialImage w) (aspectRatio w)
      (duration w) (generateAudio w) (isLoading w) (isFetchingStatus w) (error w)
      (pollingIntervalRef w) (effectDeps w) (timers w) (inflight w) (nextId w)
  else w.

Definition setInitialImage (v : option Image) (w : World) : World :=
  if mounted w then
    mkWorld (mounted w) (currentJob w) (currentPrompt w) v (aspectRatio w)
      (duration w) (generateAudio w) (isLoading w) (isFetchingStatus w) (error w)
      (pollingIntervalRef w) (effectDeps w) (timers w) (inflight w) (nextId w)
  else w.

Definition setAspectRatio (v : string) (w : World) : World :=
  if mounted w then
    mkWorld (mounted w) (currentJob w) (currentPrompt w) (initialImage w) v
      (duration w) (generateAudio w) (isLoading w) (isFetchingStatus w) (error w)
      (pollingIntervalRef w) (effectDeps w) (timers w) (inflight w) (nextId w)
  else w.

Definition setDuration (v : Z) (w : World) : World :=
  if mounted w then
    mkWorld (mounted w) (currentJob w) (currentPrompt w) (initialImage w)
      (aspectRatio w) v (generateAudio w) (isLoading w) (isFetchingStatus w)
      (error w) (pollingIntervalRef w) (effectDeps w) (timers w) (inflight w)
      (nextId w)
  else w.

Definition setGenerateAudio (v : bool) (w : World) : World :=
  if mounted w then
    mkWorld (mounted w) (currentJob w) (currentPrompt w) (initialImage w)
      (aspectRatio w) (duration w) v (isLoading w) (isFetchingStatus w) (error w)
      (pollingIntervalRef w) (effectDeps w) (timers w) (inflight w) (nextId w)
  else w.

Definition setIsLoading (v : bool) (w : World) : World :=
  if mounted w then
    mkWorld (mounted w) (currentJob w) (currentPrompt w) (initialImage w)
      (aspectRatio w) (duration w) (generateAudio w) v (isFetchingStatus w)
      (error w) (pollingIntervalRef w) (effectDeps w) (timers w) (inflight w)
      (nextId w)
  else w.

Definition setIsFetchingStatus (v : bool) (w : World) : World :=
  if mounted w then
    mkWorld (mounted w) (currentJob w) (currentPrompt w) (initialImage w)
      (aspectRatio w) (duration w) (generateAudio w) (isLoading w) v (error w)
      (pollingIntervalRef w) (effectDeps w) (timers w) (inflight w) (nextId w)
  else w.

Definition setError (v : option string) (w : World) : World :=
  if mounted w then
    mkWorld (mounted w) (currentJob w) (currentPrompt w) (initialImage w)
      (aspectRatio w) (duration w) (generateAudio w) (isLoading w)
      (isFetchingStatus w) v (pollingIntervalRef w) (effectDeps w) (timers w)
      (inflight w) (nextId w)
  else w.

(** *** The ref, the timer table and the requests in flight *)

Definition withTimers (ref : option nat) (ts : list Timer) (w : World) : World :=
  mkWorld (mounted w) (currentJob w) (currentPrompt w) (initialImage w)
    (aspectRatio w) (duration w) (generateAudio w) (isLoading w)
    (isFetchingStatus w) (error w) ref (effectDeps w) ts (inflight w) (nextId w).

Definition withEffectDeps (d : option nat * bool) (w : World) : World :=
  mkWorld (mounted w) (currentJob w) (currentPrompt w) (initialImage w)
    (aspectRatio w) (duration w) (generateAudio w) (isLoading w)
    (isFetchingStatus w) (error w) (pollingIntervalRef w) d (timers w)
    (inflight w) (nextId w).

Definition withInflight (l : list (nat * Pending)) (w : World) : World :=
  mkWorld (mounted w) (currentJob w) (currentPrompt w) (initialImage w)
    (aspectRatio w) (duration w) (generateAudio w) (isLoading w)
    (isFetchingStatus w) (error w) (pollingIntervalRef w) (effectDeps w)
    (timers w) l (nextId w).

Definition withNextId (n : nat) (w : World) : World :=
  mkWorld (mounted w) (currentJob w) (currentPrompt w) (initialImage w)
    (aspectRatio w) (duration w) (generateAudio w) (isLoading w)
    (isFetchingStatus w) (error w) (pollingIntervalRef w) (effectDeps w)
    (timers w) (inflight w) n.

Definition unmounted (w : World) : World :=
  mkWorld false (currentJob w) (currentPrompt w) (initialImage w)
    (aspectRatio w) (duration w) (generateAudio w) (isLoading w)
    (isFetchingStatus w) (error w) (pollingIntervalRef w) (effectDeps w)
    (timers w) (inflight w) (nextId w).

(** [clearInterval(id)]. *)
Definition clearInterval (id : nat) (ts : list Timer) : list Timer :=
  filter (fun t => negb (Nat.eqb (timer_id t) id)) ts.

(** [clearPollingInterval]. *)
Definition clearPollingInterval (w : World) : World :=
  match pollingIntervalRef w with
  | Some id => withTimers None (clearInterval id (timers w)) w
  | None => w
  end.

(** Starting a service call: the request is in flight until it settles. *)
Definition call (p : Pending) (w : World) : World :=
  w |> withInflight (inflight w ++ [(nextId w, p)])%list |> withNextId (S (nextId w)).

(** *** The polling effect *)

(** The condition of the effect (and of [handleClearJob]): a job with a truthy
    [operationId] whose status is ["RUNNING"] or ["GENERATING"]. *)
Definition pollable (job : option Job) : bool :=
  match job with
  | None => false
  | Some j =>
      truthy (job_get j "operationId")
      && (is_status (job_get j "status") RUNNING
          || is_status (job_get j "status") GENERATING)
  end.

(** The dependency list [[currentJob, clearPollingInterval, isFetchingStatus]];
    [clearPollingInterval] is a [useCallback] with no dependencies and never
    changes. *)
Definition deps (w : World) : option nat * bool :=
  (option_map addr (currentJob w), isFetchingStatus w).

Definition deps_eqb (a b : option nat * bool) : bool :=
  match fst a, fst b with
  | Some x, Some y => Nat.eqb x y
  | None, None => true
  | _, _ => false
  end && Bool.eqb (snd a) (snd b).

(** [setInterval(callback, ...)] with the callback's captured variables. *)
Definition setInterval (c : Closure) (w : World) : World :=
  w |> withTimers (Some (nextId w)) (timers w ++ [mkTimer (nextId w) c])%list
    |> withNextId (S (nextId w)).

(** The body of the effect. *)
Definition effectBody (w : World) : World :=
  match currentJob w with
  | Some j =>
      if pollable (currentJob w) then
        w |> clearPollingInterval |> setInterval (mkClosure j (isFetchingStatus w))
      else clearPollingInterval w
  | None => clearPollingInterval w
  end.

(** One commit of React: the state updates of one run of a handler or of a
    continuation are batched, then the component renders and, when a
    dependency changed, the cleanup of the previous run of the effect is
    called, then its body. *)
Definition commit (w : World) : World :=
  if mounted w then
    if deps_eqb (effectDeps w) (deps w) then w
    else w |> clearPollingInterval |> effectBody |> withEffectDeps (deps w)
  else w.

(** *** Handlers *)

(** [String.prototype.trim] removes the white space and the line terminators
    of ECMAScript.  A string of the model holds the UTF-8 bytes of the text,
    so each of these characters is a sequence of one, two or three bytes. *)

(** The six of the ASCII range: U+0020 and U+0009 to U+000D (tab, line feed,
    vertical tab, form feed, carriage return). *)
Definition is_space (c : ascii) : bool :=
  let n := nat_of_ascii c in
  (Nat.eqb n 32 || (Nat.leb 9 n && Nat.leb n 13))%bool.

(** U+00A0, the no-break space ([C2 A0]). *)
Definition is_space2 (c1 c2 : ascii) : bool :=
  (Nat.eqb (nat_of_ascii c1) 194 && Nat.eqb (nat_of_ascii c2) 160)%bool.

(** U+1680 ([E1 9A 80]); U+2000 to U+200A ([E2 80 80] to [E2 80 8A]); the
    line and paragraph separators U+2028, U+2029 ([E2 80 A8], [E2 80 A9]);
    U+202F ([E2 80 AF]); U+205F ([E2 81 9F]); U+3000 ([E3 80 80]); U+FEFF
    ([EF BB BF]). *)
Definition is_space3 (c1 c2 c3 : ascii) : bool :=
  let n1 := nat_of_ascii c1 in
  let n2 := nat_of_ascii c2 in
  let n3 := nat_of_ascii c3 in
  ((Nat.eqb n1 225 && Nat.eqb n2 154 && Nat.eqb n3 128)
   || (Nat.eqb n1 226 && Nat.eqb n2 128
       && ((Nat.leb 128 n3 && Nat.leb n3 138)
           || Nat.eqb n3 168 || Nat.eqb n3 169 || Nat.eqb n3 175))
   || (Nat.eqb n1 226 && Nat.eqb n2 129 && Nat.eqb n3 159)
   || (Nat.eqb n1 227 && Nat.eqb n2 128 && Nat.eqb n3 128)
   || (Nat.eqb n1 239 && Nat.eqb n2 187 && Nat.eqb n3 191))%bool.

(** The text consists of such characters only. *)
Fixpoint all_spaces (l : list ascii) : bool :=
  match l with
  | [] => true
  | c1 :: l1 =>
      if is_space c1 then all_spaces l1
      else
        match l1 with
        | [] => false
        | c2 :: l2 =>
            if is_space2 c1 c2 then all_spaces l2
            else
              match l2 with
              | [] => false
              | c3 :: l3 => if is_space3 c1 c2 c3 then all_spaces l3 else false
              end
        end
  end.

(** [!s.trim()]: the string is empty once its white space is trimmed. *)
Definition blank (s : string) : bool :=
  all_spaces (list_ascii_of_string s).

(** [e.message || fallback]. *)
Definition message_or (message : option string) (fallback : string) : string :=
  match message with
  | Some m => if (m =? "")%string then fallback else m
  | None => fallback
  end.

(** [`${e.message}`]. *)
Definition show_message (message : option string) : string :=
  match message with
  | Some m => m
  | None => "undefined"
  end.

(** [x || null] for a string. *)
Definition str_or_null (x : option string) : value :=
  match x with
  | Some s => if (s =? "")%string then VNull else VStr s
  | None => VNull
  end.

Definition find_timer (id : nat) (ts : list Timer) : option Timer :=
  find (fun t => Nat.eqb (timer_id t) id) ts.

Fixpoint take_request (req : nat) (l : list (nat * Pending))
  : option (Pending * list (nat * Pending)) :=
  match l with
  | [] => None
  | (r, p) :: l' =>
      if Nat.eqb r req then Some (p, l')
      else
        match take_request req l' with
        | Some (q, rest) => Some (q, (r, p) :: rest)
        | None => None
        end
  end.

Section Component.

(** [constants.ts] is not part of the sources; its defaults are parameters. *)
Variable DEFAULT_ASPECT_RATIO : string.
Variable DEFAULT_DURATION_SECONDS : Z.
Variable DEFAULT_GENERATE_AUDIO : bool.

(** The component after its first render and the first run of the effect
    (no job: the effect only clears). *)
Definition mount : World :=
  {| mounted := true;
     currentJob := None;
     currentPrompt := "";
     initialImage := None;
     aspectRatio := DEFAULT_ASPECT_RATIO;
     duration := DEFAULT_DURATION_SECONDS;
     generateAudio := DEFAULT_GENERATE_AUDIO;
     isLoading := false;
     isFetchingStatus := false;
     error := None;
     pollingIntervalRef := None;
     effectDeps := (None, false);
     timers := [];
     inflight := [];
     nextId := 0%nat |}.

(** The interval callback, up to its [await]. *)
Definition intervalCallback (c : Closure) (w : World) : World :=
  if cl_isFetchingStatus c then w
  else
    w |> setIsFetchingStatus true
      |> setError None
      |> call (PendingPoll (job_get (cl_currentJob c) "operationId")).

(** [updatedJob.status === "SUCCEEDED" || updatedJob.status === "FAILED"]. *)
Definition terminal (updatedJob : obj) : bool :=
  is_status (lookup "status" updatedJob) SUCCEEDED
  || is_status (lookup "status" updatedJob) FAILED.

(** The [try] block after [fetchVideoStatus] resolved (both callers). *)
Definition statusFetched (updatedJob : obj) (w : World) : World :=
  let w := w |> setCurrentJob (Some (mkJob (nextId w) updatedJob))
             |> withNextId (S (nextId w)) in
  if terminal updatedJob then w |> clearPollingInterval |> setIsLoading false
  else w.

(** The interval callback, from the point where its [await] settles. *)
Definition intervalContinuation (r : Settled) (w : World) : World :=
  match r with
  | Resolved updatedJob => statusFetched updatedJob w
  | Threw m =>
      w |> setError (Some (message_or m "Failed to fetch video status from backend."))
        |> clearPollingInterval
        |> setIsLoading false
  end |> setIsFetchingStatus false.

(** [params] of [handleInitiateVideo]. *)
Definition generationParams (w : World) : obj :=
  [("prompt", VStr (currentPrompt w));
   ("imageBase64", str_or_null (option_map base64 (initialImage w)));
   ("mimeType", str_or_null (option_map mimeType (initialImage w)));
   ("aspectRatio", VStr (aspectRatio w));
   ("durationSeconds", VNum (duration w));
   ("generateAudio", VBool (generateAudio w))].

Definition handleInitiateVideo (w : World) : World :=
  if blank (currentPrompt w) then w |> setError (Some "Prompt cannot be empty.")
  else if isLoading w then w
  else
    w |> setIsLoading true
      |> setError None
      |> setCurrentJob None
      |> clearPollingInterval
      |> call (PendingInit (generationParams w)).

(** The job literal built once [initiateVideoGeneration] resolved. *)
Definition newJob (params : obj) (now : Z) (operationId : value) : obj :=
  (params ++
   [("id", VStr ("job_" ++ show_Z now));
    ("operationId", operationId);
    ("status", VStr "GENERATING");
    ("videoBase64", VNull);
    ("errorMessage", VNull);
    ("progress", VNum 0)])%list.

Definition initiateContinuation (params : obj) (now : Z) (r : Settled) (w : World)
  : World :=
  match r with
  | Resolved result =>
      w |> setCurrentJob
             (Some (mkJob (nextId w) (newJob params now (lookup "operationId" result))))
        |> withNextId (S (nextId w))
  | Threw m =>
      w |> setError
             (Some (message_or m "Failed to initiate video generation via backend."))
        |> setIsLoading false
  end.

Definition handleFetchStatusManual (w : World) : World :=
  match currentJob w with
  | None => w
  | Some j =>
      if negb (truthy (job_get j "operationId")) || isLoading w || isFetchingStatus w
      then w
      else
        w |> setIsFetchingStatus true
          |> setError None
          |> call (PendingManual (job_get j "operationId"))
  end.

Definition manualContinuation (r : Settled) (w : World) : World :=
  match r with
  | Resolved updatedJob => statusFetched updatedJob w
  | Threw m =>
      w |> setError (Some (message_or m "Failed to fetch video status from backend."))
  end |> setIsFetchingStatus false.

(** The tail of [handleClearJob], after the [if]. *)
Definition clearJob (w : World) : World :=
  w |> clearPollingInterval
    |> setCurrentJob None
    |> setCurrentPrompt ""
    |> setInitialImage None
    |> setAspectRatio DEFAULT_ASPECT_RATIO
    |> setDuration DEFAULT_DURATION_SECONDS
    |> setGenerateAudio DEFAULT_GENERATE_AUDIO
    |> setError None
    |> setIsLoading false
    |> setIsFetchingStatus false.

(** [handleClearJob] up to its [await], or to its end when there is nothing
    to cancel. *)
Definition handleClearJob (w : World) : World :=
  match currentJob w with
  | Some j =>
      if pollable (currentJob w) then
        w |> setIsLoading true
          |> setError None
          |> call (PendingCancel (job_get j "operationId"))
      else clearJob w
  | None => clearJob w
  end.

(** [handleClearJob] from the point where [cancelVideoGeneration] settles. *)
Definition cancelContinuation (r : Settled) (w : World) : World :=
  match r with
  | Resolved _ => w
  | Threw m =>
      w |> setError
             (Some ("Failed to request cancellation from backend: "
                      ++ show_message m ++ ". Clearing job locally."))
  end |> setIsLoading false |> clearJob.

Definition handleImageUpload (fileType : string) (w : World) : World :=
  if String.prefix "image/" fileType then w
  else w |> setError (Some "Please upload a valid image file (JPEG, PNG, GIF, WEBP).").

(** *** What the rendered page lets the user do ([disabled] attributes) *)

Definition job_status (w : World) : value :=
  match currentJob w with
  | Some j => job_get j "status"
  | None => VUndef
  end.

Definition generateDisabled (w : World) : bool :=
  isLoading w || blank (currentPrompt w).

Definition fetchDisabled (w : World) : bool :=
  isLoading w || isFetchingStatus w
  || match currentJob w with
     | None => true
     | Some j =>
         negb (truthy (job_get j "operationId"))
         || is_status (job_get j "status") SUCCEEDED
         || is_status (job_get j "status") FAILED
     end.

Definition clearDisabled (w : World) : bool :=
  isLoading w
  && (is_status (job_status w) GENERATING || is_status (job_status w) RUNNING).

(** *** Events and the step function *)

Inductive Event : Type :=
| ChangePrompt (s : string)
| ChangeAspectRatio (s : string)
| ChangeDuration (n : Z)
| ChangeGenerateAudio (b : bool)
| UploadFile (fileType : string)
| ImageLoaded (img : Image)
| ImageReadError
| ClearError
| ClickGenerate
| ClickFetchStatus
| ClickClear
| Tick (id : nat)                           (* a live interval fires *)
| Settle (req : nat) (now : Z) (r : Settled) (* a service call settles *)
| Unmount.

(** The code that runs for an event, before React commits. *)
Definition handle (e : Event) (w : World) : World :=
  match e with
  | ChangePrompt s => if isLoading w then w else setCurrentPrompt s w
  | ChangeAspectRatio s => if isLoading w then w else setAspectRatio s w
  | ChangeDuration n => if isLoading w then w else setDuration n w
  | ChangeGenerateAudio b => if isLoading w then w else setGenerateAudio b w
  | UploadFile t => if isLoading w then w else handleImageUpload t w
  | ImageLoaded img => w |> setInitialImage (Some img) |> setError None
  | ImageReadError => w |> setError (Some "Failed to read the image file.")
  | ClearError => w |> setError None
  | ClickGenerate => if generateDisabled w then w else handleInitiateVideo w
  | ClickFetchStatus => if fetchDisabled w then w else handleFetchStatusManual w
  | ClickClear => if clearDisabled w then w else handleClearJob w
  | Tick id =>
      match find_timer id (timers w) with
      | Some t => intervalCallback (timer_closure t) w
      | None => w
      end
  | Settle req now r =>
      match take_request req (inflight w) with
      | None => w
      | Some (p, rest) =>
          let w := withInflight rest w in
          match p with
          | PendingInit params => initiateContinuation params now r w
          | PendingPoll _ => intervalContinuation r w
          | PendingManual _ => manualContinuation r w
          | PendingCancel _ => cancelContinuation r w
          end
      end
  | Unmount => w |> clearPollingInterval |> unmounted
  end.

(** One event: its code, then the commit.  A page that is gone takes no
    user events; calls in flight still settle. *)
Definition step (w : World) (e : Event) : World :=
  match e with
  | Settle _ _ _ => commit (handle e w)
  | _ => if mounted w then commit (handle e w) else w
  end.

Definition run (w : World) (es : list Event) : World := fold_left step es w.

Inductive reachable : World -> Prop :=
| reach_mount : reachable mount
| reach_step w e : reachable w -> reachable (step w e).

End Component.

(** *** Invariants of the component *)

(** The ref and the browser's timer table agree: the only interval that can
    be live is the one the ref holds, and its callback captured the
    [isFetchingStatus] of the effect run that created it. *)
Definition timers_ok (w : World) : Prop :=
  match pollingIntervalRef w, timers w with
  | None, [] => True
  | Some id, [t] =>
      timer_id t = id
      /\ cl_isFetchingStatus (timer_closure t) = snd (effectDeps w)
  | _, _ => False
  end.

(** Once the component is unmounted no interval is left. *)
Definition gone_idle (w : World) : Prop :=
  mounted w = false -> pollingIntervalRef w = None /\ timers w = [].

(** The effect has run for the values the component holds now. *)
Definition synced (w : World) : Prop :=
  mounted w = true -> effectDeps w = deps w.

(** A status call ([fetchVideoStatus]) of either caller. *)
Definition is_status_call (p : Pending) : bool :=
  match p with
  | PendingPoll _ | PendingManual _ => true
  | _ => false
  end.

(** The status calls in flight for an operation id. *)
Definition value_is (v : value) (s : string) : bool :=
  match v with
  | VStr x => (x =? s)%string
  | _ => false
  end.

Definition polls_for (operationId : string) (w : World) : list nat :=
  map fst
    (filter (fun rp => match snd rp with
                       | PendingPoll op | PendingManual op => value_is op operationId
                       | _ => false
                       end)
       (inflight w)).

(** *** The status service *)

(** Modelled from the spec: [fetchVideoStatus] of [services/aiService.ts],
    which is not part of the sources.  It "calls the relay's status
    endpoint", whose answer [{id, operationId, status}] is the updated job;
    "any transport/HTTP failure" is thrown to the caller (with the [message]
    of the relay's error body, when there is one). *)
Definition fetchVideoStatus (answer : Relay.HttpReply) : Settled :=
  if (200 <=? Relay.code answer) && (Relay.code answer <? 300) then
    match Relay.body answer with
    | VObj fs => Resolved fs
    | _ => Resolved []
    end
  else
    Threw (match get (Relay.body answer) "message" with
           | VStr m => Some m
           | _ => None
           end).

(** *** The state cells and further invariants *)

(** The nine [useState] cells. *)
Definition cells (w : World)
  : option Job * string * option Image * string * Z * bool * bool * bool
    * option string :=
  (currentJob w, currentPrompt w, initialImage w, aspectRatio w, duration w,
   generateAudio w, isLoading w, isFetchingStatus w, error w).

(** A live interval belongs to the current job: the component is mounted, the
    callback captured the job and the [isFetchingStatus] the component holds
    now, and that job is pollable. *)
Definition live_ok (w : World) : Prop :=
  forall t, In t (timers w) ->
    mounted w = true
    /\ currentJob w = Some (cl_currentJob (timer_closure t))
    /\ pollable (currentJob w) = true
    /\ cl_isFetchingStatus (timer_closure t) = isFetchingStatus w.

(** Object identities are handed out in increasing order. *)
Definition fresh_ok (w : World) : Prop :=
  match currentJob w with
  | Some j => (addr j < nextId w)%nat
  | None => True
  end.

(** What the code of one event (before the commit) can have done to the
    timers, the effect's record and the current job. *)
Definition advanced (w0 w : World) : Prop :=
  incl (timers w) (timers w0)
  /\ effectDeps w = effectDeps w0
  /\ mounted w = mounted w0
  /\ (nextId w0 <= nextId w)%nat
  /\ (currentJob w = currentJob w0
      \/ currentJob w = None
      \/ exists j, currentJob w = Some j /\ (nextId w0 <= addr j)%nat)
  /\ (fresh_ok w0 -> fresh_ok w).

(** The property names of [params] in [handleInitiateVideo]. *)
Definition param_keys : list string :=
  ["prompt"; "imageBase64"; "mimeType"; "aspectRatio"; "durationSeconds";
   "generateAudio"].

Definition good_pending (p : Pending) : Prop :=
  match p with
  | PendingInit params => map fst params = param_keys
  | _ => True
  end.


(** Every start call in flight carries a [params] object of that shape. *)
Definition inits_ok (w : World) : Prop :=
  Forall (fun rp => good_pending (snd rp)) (inflight w).

End Poller.

(** ** Scenarios *)

Module Scenario.
Import Poller.

(** The component with the defaults 16:9, 8 seconds, audio on. *)
Definition app : World := mount "16:9" 8 true.
Definition next (w : World) (e : Event) : World := step "16:9" 8 true w e.
Definition after (es : list Event) : World := run "16:9" 8 true app es.

Definition network_error : Settled := Threw (Some "Network Error").

(** What the relay's status endpoint answers. *)
Definition envelope (operationId status : string) : obj :=
  [("id", VStr "job_2000"); ("operationId", VStr operationId);
   ("status", VStr status)].

(** The user submits "a cat"; the relay returns [op_1]; the first tick polls. *)
Definition started_op_1 : list Event :=
  [ChangePrompt "a cat"; ClickGenerate;
   Settle 0 1000 (Resolved [("operationId", VStr "op_1")])].

Definition polling_op_1 : list Event := (started_op_1 ++ [Tick 2])%list.

(** The poll fails in transport; the next tick polls again. *)
Definition failed_once : list Event :=
  (polling_op_1 ++ [Settle 3 1500 network_error])%list.

Definition polling_again : list Event := (failed_once ++ [Tick 5])%list.

(** The second poll finds the operation running. *)
Definition running_op_1 : list Event :=
  (polling_again ++ [Settle 6 2000 (Resolved (envelope "op_1" "RUNNING"))])%list.

(** With the second poll still in flight the user clears the job (the cancel
    call fails), then submits "a dog"; the relay returns [op_2]; a tick
    polls it. *)
Definition replaced_by_op_2 : list Event :=
  (polling_again
     ++ [ClickClear; Settle 8 2500 network_error; ChangePrompt "a dog";
         ClickGenerate; Settle 9 3000 (Resolved [("operationId", VStr "op_2")])])%list.

Definition polling_op_2 : list Event := (replaced_by_op_2 ++ [Tick 11])%list.

(** The poll of [op_1], still in flight, now fails in transport. *)
Definition stale_failure : list Event :=
  (polling_op_2 ++ [Settle 6 3500 network_error])%list.

(** Upstream operations as [axios.get] returns them. *)
Definition operation_succeeded : value :=
  VObj [("name", VStr "op_1"); ("done", VBool true);
        ("response",
         VObj [("videos", VArr [VObj [("bytesBase64Encoded", VStr "AAAAIGZ0eXBpc29t")]])])].

Definition operation_failed : value :=
  VObj [("name", VStr "op_1"); ("done", VBool true);
        ("error", VObj [("code", VNum 8); ("message", VStr "quota exceeded")])].

Definition operation_running : value :=
  VObj [("name", VStr "op_1")].

Definition answer (status : string) : Relay.HttpReply :=
  Relay.mkReply 200
    (VObj [("id", VStr "job_2000"); ("operationId", VStr "op_1");
           ("status", VStr status)]).

(** The parameters, the job and the interval of the first scenario. *)
Definition cat_params : obj :=
  [("prompt", VStr "a cat"); ("imageBase64", VNull); ("mimeType", VNull);
   ("aspectRatio", VStr "16:9"); ("durationSeconds", VNum 8);
   ("generateAudio", VBool true)].

Definition job_op_1 : Job :=
  mkJob 1
    (cat_params
       ++ [("id", VStr "job_1000"); ("operationId", VStr "op_1");
           ("status", VStr "GENERATING"); ("videoBase64", VNull);
           ("errorMessage", VNull); ("progress", VNum 0)])%list.

Definition timer_2 : Timer := mkTimer 2 (mkClosure job_op_1 false).

(** The prompt is submitted and the start call is in flight. *)
Definition submitted : list Event := [ChangePrompt "a cat"; ClickGenerate].

(** The first poll finds the operation finished. *)
Definition succeeded_op_1 : list Event :=
  (polling_op_1 ++ [Settle 3 2000 (Resolved (envelope "op_1" "SUCCEEDED"))])%list.

(** The page is left while the first poll is in flight. *)
Definition left_while_polling : list Event := (polling_op_1 ++ [Unmount])%list.


End Scenario.

(** ** Properties of the relay *)

Module RelayProps.
Import Relay.

Lemma status_string_inj (a b : RelayStatus) :
  status_string a = status_string b -> a = b.
Proof. destruct a, b; simpl; congruence. Qed.

(** An object is truthy whatever it holds, so a result payload counts as
    present as soon as it is an object. *)
Lemma object_truthy (fs : obj) : truthy (VObj fs) = true.
Proof. reflexivity. Qed.



(** X4.  What the relay answers depends on the operation only through the
    truthiness of [done] and [response]: the content of the result payload and
    the [error] field never reach the answer. *)
Lemma status_forgets_payload (operationId : string) (now : Z) (d1 d2 : value) :
  nullish d1 = false -> nullish d2 = false ->
  truthy (get d1 "done") = truthy (get d2 "done") ->
  truthy (get d1 "response") = truthy (get d2 "response") ->
  status operationId now (Fulfilled d1) = status operationId now (Fulfilled d2).
Proof.
  intros N1 N2 Hd Hr. unfold status, operation_status.
  rewrite N1, N2, Hd, Hr. reflexivity.
Qed.

(** The cancel handler answers 200 when the upstream call succeeds and does
    not answer at all when it fails. *)
Lemma cancel_sent (operationId : string) (upstream : awaited value) :
  sent (cancel operationId upstream) =
  match upstream with
  | Fulfilled _ => Some (mkReply 200 (VObj [("message", VStr "Cancellation requested")]))
  | Rejected _ => None
  end.
Proof. destruct upstream; reflexivity. Qed.

Section Generate.

Variables project location : option string.

Lemma generate_missing_prompt gc (reqBody : value) :
  nullish reqBody = false ->
  truthy (get reqBody "prompt") = false ->
  generate project location gc reqBody
  = reply 400 (VObj [("message", VStr "Prompt is required")]).
Proof. intros N P. unfold generate. rewrite N, P. reflexivity. Qed.

Lemma generate_accepted gc (reqBody : value) :
  nullish reqBody = false ->
  truthy (get reqBody "prompt") = true ->
  generate project location gc reqBody
  = generate_respond (gc (upstream_request project location reqBody)).
Proof. intros N P. unfold generate. rewrite N, P. reflexivity. Qed.

Lemma respond_operation (response name : value) :
  operation_name response = Some name ->
  truthy name = true ->
  generate_respond (Fulfilled response) = reply 200 (VObj [("operationId", name)]).
Proof. intros O T. unfold generate_respond. rewrite O, T. reflexivity. Qed.

Lemma respond_no_operation (response name : value) :
  operation_name response = Some name ->
  truthy name = false ->
  generate_respond (Fulfilled response)
  = reply 500 (VObj [("message", VStr "Failed to initiate video generation")]).
Proof. intros O T. unfold generate_respond. rewrite O, T. reflexivity. Qed.

(** X2.  The generate handler ends without a response exactly when its
    [catch] block is reached: the body cannot be destructured, or the prompt
    is truthy and the upstream call is rejected or yields a value without a
    [response] to read the operation from. *)
Lemma generate_unanswered gc (reqBody : value) :
  sent (generate project location gc reqBody) = None <->
  nullish reqBody = true
  \/ (truthy (get reqBody "prompt") = true
      /\ match gc (upstream_request project location reqBody) with
         | Rejected _ => True
         | Fulfilled response => operation_name response = None
         end).
Proof.
  unfold generate, upstream_request, generate_respond.
  destruct (nullish reqBody); simpl; [tauto|].
  destruct (truthy (get reqBody "prompt")); simpl.
  - destruct (gc _) as [response|e]; simpl.
    + destruct (operation_name response) as [name|]; simpl.
      * destruct (truthy name); simpl; split; intro H;
          try discriminate; destruct H as [H|[_ H]]; discriminate.
      * tauto.
    + tauto.
  - split; [discriminate|]. intros [H|[H _]]; discriminate.
Qed.

(** C10.  For every generate request the relay accepts, the upstream request
    is the endpoint plus one instance holding the prompt and the three
    parameters [aspectRatio], [durationSeconds], [generateAudio] of the
    body, and nothing else of the body: two bodies that agree on these four
    fields (so that they differ at most in [imageBase64], [mimeType] or
    other fields) produce the same upstream request and the same relay
    response, operation id included. *)
Theorem generate_never_forwards_image gc (b1 b2 : value) :
  nullish b1 = false -> nullish b2 = false ->
  get b1 "prompt" = get b2 "prompt" ->
  get b1 "aspectRatio" = get b2 "aspectRatio" ->
  get b1 "durationSeconds" = get b2 "durationSeconds" ->
  get b1 "generateAudio" = get b2 "generateAudio" ->
  upstream_request project location b1
  = VObj [("endpoint", VStr (endpoint project location));
          ("instances",
           VArr [VObj [("prompt", get b1 "prompt");
                       ("parameters",
                        VObj [("aspectRatio", get b1 "aspectRatio");
                              ("durationSeconds", get b1 "durationSeconds");
                              ("generateAudio", get b1 "generateAudio")])]])]
  /\ upstream_request project location b1 = upstream_request project location b2
  /\ generate project location gc b1 = generate project location gc b2
  /\ (truthy (get b1 "prompt") = true ->
      generate project location gc b1
      = generate_respond (gc (upstream_request project location b1))).
Proof.
  intros N1 N2 Hp Ha Hd Hg.
  assert (R : upstream_request project location b1
              = upstream_request project location b2).
  { unfold upstream_request. rewrite Hp, Ha, Hd, Hg. reflexivity. }
  split; [reflexivity|]. split; [exact R|]. split.
  - unfold generate. rewrite N1, N2, Hp, Ha, Hd, Hg. reflexivity.
  - intro P. apply generate_accepted; assumption.
Qed.

End Generate.

Lemma generate_never_forwards_image_witness :
  generate (Some "proj") (Some "us-central1") upstream_starts body_with_image
  = generate (Some "proj") (Some "us-central1") upstream_starts body_without_image
  /\ generate (Some "proj") (Some "us-central1") upstream_starts body_with_image
     = reply 200 (VObj [("operationId", VStr "op_1")]).
Proof.
  pose proof (generate_never_forwards_image (Some "proj") (Some "us-central1")
                upstream_starts body_with_image body_without_image
                eq_refl eq_refl eq_refl eq_refl eq_refl eq_refl) as [_ [_ [H _]]].
  split; [exact H | reflexivity].
Defined.

(** C9.  A generate request whose upstream call fails gets no HTTP response
    at all: the [catch] block writes a log line and returns, where the claim
    promises a 5xx with a message.  (The other outcomes are answered: 400 for
    a missing prompt, 500 when the upstream names no operation, the operation
    id otherwise.) *)
Theorem generate_upstream_failure_unanswered :
  generate (Some "proj") (Some "us-central1") upstream_fails body_without_image
  = {| sent := None; logged := ["Error initiating video generation:"] |}
  /\ generate (Some "proj") (Some "us-central1") upstream_starts body_without_image
     = reply 200 (VObj [("operationId", VStr "op_1")])
  /\ generate (Some "proj") (Some "us-central1") upstream_starts
       (VObj [("aspectRatio", VStr "16:9")])
     = reply 400 (VObj [("message", VStr "Prompt is required")])
  /\ generate (Some "proj") (Some "us-central1")
       (fun _ => Fulfilled (VObj [("response", VObj [])])) body_without_image
     = reply 500 (VObj [("message", VStr "Failed to initiate video generation")]).
Proof. repeat split. Qed.

(** *** What the handlers answer *)

Section Answers.

Variables project location : option string.

(** X1.  Every response of the generate handler is one of three: 400
    "Prompt is required" for a body whose prompt is falsy (absent, null,
    empty string, 0, false); 500 "Failed to initiate video generation" when
    the upstream call succeeded and names no operation; 200 with the
    operation's name, which is then truthy (never an empty or missing
    [operationId]). *)
Theorem generate_reply_shapes gc (reqBody : value) (r : HttpReply) :
  sent (generate project location gc reqBody) = Some r ->
  (r = mkReply 400 (VObj [("message", VStr "Prompt is required")])
   /\ truthy (get reqBody "prompt") = false)
  \/ (exists response name,
        gc (upstream_request project location reqBody) = Fulfilled response
        /\ operation_name response = Some name
        /\ truthy name = false
        /\ r = mkReply 500
                 (VObj [("message", VStr "Failed to initiate video generation")]))
  \/ (exists response name,
        gc (upstream_request project location reqBody) = Fulfilled response
        /\ operation_name response = Some name
        /\ truthy name = true
        /\ r = mkReply 200 (VObj [("operationId", name)])).
Proof.
  unfold generate, upstream_request, generate_respond.
  destruct (nullish reqBody); [discriminate|].
  destruct (truthy (get reqBody "prompt")); cbn [negb].
  - destruct (gc _) as [response|e] eqn:G; [|discriminate].
    destruct (operation_name response) as [name|] eqn:O; [|discriminate].
    destruct (truthy name) eqn:T; cbn [negb reply sent]; intro H;
      injection H as <-; right; [right|left]; exists response, name;
      repeat split; assumption.
  - cbn [reply sent]. intro H. injection H as <-. left. split; reflexivity.
Qed.

(** X3.  Every answer of the status handler is a 200 whose body has exactly
    the properties [id], [operationId] and [status]: the operation id is the
    one of the request path (the upstream operation's own name is not
    used), the id is made from the relay's clock at that poll, and any other
    property ([prompt], [videoBase64], [errorMessage], [progress], ...)
    reads [undefined]. *)
Theorem status_answer_shape
  (operationId : string) (now : Z) (upstream : awaited value) (r : HttpReply) :
  sent (status operationId now upstream) = Some r ->
  code r = 200
  /\ get (body r) "operationId" = VStr operationId
  /\ get (body r) "id" = VStr ("job_" ++ show_Z now)
  /\ (exists s, get (body r) "status" = VStr (status_string s))
  /\ (forall k, k <> "id" -> k <> "operationId" -> k <> "status" ->
      get (body r) k = VUndef).
Proof.
  unfold status. destruct upstream as [data|e]; [|discriminate].
  destruct (nullish data); [discriminate|].
  cbn [reply sent]. intro H. injection H as <-. cbn [code body].
  split; [reflexivity|]. split; [reflexivity|]. split; [reflexivity|].
  split; [eexists; reflexivity|].
  intros k K1 K2 K3. cbn [get lookup].
  apply String.eqb_neq in K1, K2, K3. rewrite K1, K2, K3. reflexivity.
Qed.

(** X5.  A handler of the relay either sends a response and logs nothing, or
    logs one line and sends nothing: no request is answered twice, and a
    request that reaches a [catch] block is never answered. *)
Theorem answers_or_logs gc (reqBody : value) (operationId : string) (now : Z)
  (upstream : awaited value) :
  let answered (h : Handled) :=
    (exists r, sent h = Some r /\ logged h = [])
    \/ (exists line, sent h = None /\ logged h = [line]) in
  answered (generate project location gc reqBody)
  /\ answered (status operationId now upstream)
  /\ answered (cancel operationId upstream).
Proof.
  cbv zeta. split; [|split].
  - unfold generate, generate_respond.
    destruct (nullish reqBody); [right; eexists; split; reflexivity|].
    destruct (truthy (get reqBody "prompt")); cbn [negb];
      [|left; eexists; split; reflexivity].
    destruct (gc _) as [response|e]; [|right; eexists; split; reflexivity].
    destruct (operation_name response) as [name|];
      [|right; eexists; split; reflexivity].
    destruct (truthy name); left; eexists; split; reflexivity.
  - unfold status. destruct upstream as [data|e];
      [|right; eexists; split; reflexivity].
    destruct (nullish data); [right|left]; eexists; split; reflexivity.
  - destruct upstream; [left|right]; eexists; split; reflexivity.
Qed.

End Answers.

Lemma generate_reply_shapes_witness :
  sent (generate (Some "proj") (Some "us-central1") upstream_starts body_with_image)
  = Some (mkReply 200 (VObj [("operationId", VStr "op_1")]))
  /\ truthy (VStr "op_1") = true.
Proof.
  split; [reflexivity|].
  destruct (generate_reply_shapes (Some "proj") (Some "us-central1")
              upstream_starts body_with_image
              (mkReply 200 (VObj [("operationId", VStr "op_1")])) eq_refl)
    as [[H _]|[[response [name [_ [_ [_ H]]]]]|[response [name [_ [_ [T H]]]]]]].
  - discriminate H.
  - discriminate H.
  - injection H as <-. exact T.
Defined.

Lemma status_answer_shape_witness :
  get (VObj [("id", VStr "job_2000"); ("operationId", VStr "op_1");
             ("status", VStr "SUCCEEDED")]) "videoBase64" = VUndef
  /\ get (VObj [("id", VStr "job_2000"); ("operationId", VStr "op_1");
                ("status", VStr "SUCCEEDED")]) "prompt" = VUndef.
Proof.
  destruct (status_answer_shape "op_1" 2000 (Fulfilled operation_with_result)
              (mkReply 200
                 (VObj [("id", VStr "job_2000"); ("operationId", VStr "op_1");
                        ("status", VStr "SUCCEEDED")])) eq_refl)
    as [_ [_ [_ [_ H]]]].
  split; apply H; discriminate.
Defined.

Lemma status_forgets_payload_witness :
  status "op_1" 2000 (Fulfilled operation_with_result)
  = status "op_1" 2000 (Fulfilled operation_with_other_result).
Proof.
  exact (status_forgets_payload "op_1" 2000 operation_with_result
           operation_with_other_result eq_refl eq_refl eq_refl eq_refl).
Defined.

End RelayProps.


(** ** Properties of the job poller *)

Module PollerProps.
Import Poller.
Local Open Scope poller_scope.

Lemma deps_eqb_eq (a b : option nat * bool) : deps_eqb a b = true -> a = b.
Proof.
  destruct a as [[x|] p], b as [[y|] q]; unfold deps_eqb; cbn [fst snd];
    intro H; apply andb_prop in H; destruct H as [H1 H2];
    try discriminate; apply Bool.eqb_prop in H2; subst.
  - apply Nat.eqb_eq in H1. subst. reflexivity.
  - reflexivity.
Qed.

Lemma deps_eqb_refl (a : option nat * bool) : deps_eqb a a = true.
Proof.
  destruct a as [[x|] p]; unfold deps_eqb; simpl;
    rewrite ?Nat.eqb_refl, Bool.eqb_reflx; reflexivity.
Qed.

Ltac open_world w :=
  destruct w as [m cj cp ii ar du ga il ifs er rf ed ts rq nx].

(** *** The state setters leave the timers alone *)

Ltac setter_ok :=
  let w := fresh "w" in
  let H := fresh "H" in
  intros w H;
  lazymatch goal with |- timers_ok (?f _ w) => unfold f end;
  destruct (mounted w); exact H.

Lemma setCurrentJob_ok v : forall w, timers_ok w -> timers_ok (setCurrentJob v w).
Proof. setter_ok. Qed.
Lemma setCurrentPrompt_ok v : forall w, timers_ok w -> timers_ok (setCurrentPrompt v w).
Proof. setter_ok. Qed.
Lemma setInitialImage_ok v : forall w, timers_ok w -> timers_ok (setInitialImage v w).
Proof. setter_ok. Qed.
Lemma setAspectRatio_ok v : forall w, timers_ok w -> timers_ok (setAspectRatio v w).
Proof. setter_ok. Qed.
Lemma setDuration_ok v : forall w, timers_ok w -> timers_ok (setDuration v w).
Proof. setter_ok. Qed.
Lemma setGenerateAudio_ok v : forall w, timers_ok w -> timers_ok (setGenerateAudio v w).
Proof. setter_ok. Qed.
Lemma setIsLoading_ok v : forall w, timers_ok w -> timers_ok (setIsLoading v w).
Proof. setter_ok. Qed.
Lemma setIsFetchingStatus_ok v :
  forall w, timers_ok w -> timers_ok (setIsFetchingStatus v w).
Proof. setter_ok. Qed.
Lemma setError_ok v : forall w, timers_ok w -> timers_ok (setError v w).
Proof. setter_ok. Qed.
Lemma withInflight_ok l : forall w, timers_ok w -> timers_ok (withInflight l w).
Proof. intros w H; open_world w; exact H. Qed.
Lemma withNextId_ok n : forall w, timers_ok w -> timers_ok (withNextId n w).
Proof. intros w H; open_world w; exact H. Qed.
Lemma unmounted_ok : forall w, timers_ok w -> timers_ok (unmounted w).
Proof. intros w H; open_world w; exact H. Qed.
Lemma call_ok p : forall w, timers_ok w -> timers_ok (call p w).
Proof. intros w H; open_world w; exact H. Qed.

(** [clearPollingInterval] empties the timer table, because the ref holds
    the only live interval. *)
Lemma clear_idle (w : World) :
  timers_ok w ->
  pollingIntervalRef (clearPollingInterval w) = None
  /\ timers (clearPollingInterval w) = [].
Proof.
  open_world w. unfold timers_ok, clearPollingInterval. cbn.
  destruct rf as [id|]; destruct ts as [|t [|t' ts]]; try contradiction.
  - intros [H _]. subst id. cbn. rewrite Nat.eqb_refl. cbn. auto.
  - auto.
Qed.

Lemma idle_ok (w : World) :
  pollingIntervalRef w = None -> timers w = [] -> timers_ok w.
Proof. unfold timers_ok. intros -> ->. exact I. Qed.

Lemma clearPollingInterval_ok : forall w, timers_ok w -> timers_ok (clearPollingInterval w).
Proof. intros w H. destruct (clear_idle w H). apply idle_ok; assumption. Qed.

Lemma effectBody_ok (w : World) :
  pollingIntervalRef w = None -> timers w = [] ->
  timers_ok (withEffectDeps (deps w) (effectBody w)).
Proof.
  open_world w. cbn. intros -> ->.
  unfold effectBody, clearPollingInterval, setInterval. cbn.
  destruct cj as [j|]; [|exact I].
  destruct (pollable (Some j)); cbn; [split; reflexivity | exact I].
Qed.

Lemma clear_deps (w : World) : deps (clearPollingInterval w) = deps w.
Proof.
  open_world w. unfold clearPollingInterval. cbn. destruct rf; reflexivity.
Qed.

Lemma setInterval_deps c (w : World) : deps (setInterval c w) = deps w.
Proof. reflexivity. Qed.

Lemma effectBody_deps (w : World) : deps (effectBody w) = deps w.
Proof.
  unfold effectBody.
  destruct (currentJob w) as [j|]; [destruct (pollable (Some j))|];
    rewrite ?setInterval_deps; apply clear_deps.
Qed.

Lemma commit_ok (w : World) : timers_ok w -> timers_ok (commit w).
Proof.
  intro H. unfold commit.
  destruct (mounted w); [|exact H].
  destruct (deps_eqb (effectDeps w) (deps w)); [exact H|].
  destruct (clear_idle w H) as [R T].
  rewrite <- (clear_deps w). apply effectBody_ok; assumption.
Qed.

Ltac ok_step :=
  lazymatch goal with
  | H : timers_ok ?w |- timers_ok ?w => exact H
  | |- timers_ok (clearPollingInterval _) => apply clearPollingInterval_ok
  | |- timers_ok (commit _) => apply commit_ok
  | |- timers_ok (setCurrentJob _ _) => apply setCurrentJob_ok
  | |- timers_ok (setCurrentPrompt _ _) => apply setCurrentPrompt_ok
  | |- timers_ok (setInitialImage _ _) => apply setInitialImage_ok
  | |- timers_ok (setAspectRatio _ _) => apply setAspectRatio_ok
  | |- timers_ok (setDuration _ _) => apply setDuration_ok
  | |- timers_ok (setGenerateAudio _ _) => apply setGenerateAudio_ok
  | |- timers_ok (setIsLoading _ _) => apply setIsLoading_ok
  | |- timers_ok (setIsFetchingStatus _ _) => apply setIsFetchingStatus_ok
  | |- timers_ok (setError _ _) => apply setError_ok
  | |- timers_ok (withInflight _ _) => apply withInflight_ok
  | |- timers_ok (withNextId _ _) => apply withNextId_ok
  | |- timers_ok (unmounted _) => apply unmounted_ok
  | |- timers_ok (call _ _) => apply call_ok
  | |- timers_ok (match ?x with _ => _ end) => destruct x
  end.

Ltac ok := cbv zeta; repeat (ok_step; cbv zeta).

(** *** Nothing revives a timer after the unmount *)

Ltac setter_gone :=
  let w := fresh "w" in
  let H := fresh "H" in
  intros w H;
  lazymatch goal with |- gone_idle (?f _ w) => unfold f end;
  destruct (mounted w) eqn:?; [intro; discriminate | exact H].

Lemma setCurrentJob_gone v : forall w, gone_idle w -> gone_idle (setCurrentJob v w).
Proof. setter_gone. Qed.
Lemma setCurrentPrompt_gone v : forall w, gone_idle w -> gone_idle (setCurrentPrompt v w).
Proof. setter_gone. Qed.
Lemma setInitialImage_gone v : forall w, gone_idle w -> gone_idle (setInitialImage v w).
Proof. setter_gone. Qed.
Lemma setAspectRatio_gone v : forall w, gone_idle w -> gone_idle (setAspectRatio v w).
Proof. setter_gone. Qed.
Lemma setDuration_gone v : forall w, gone_idle w -> gone_idle (setDuration v w).
Proof. setter_gone. Qed.
Lemma setGenerateAudio_gone v : forall w, gone_idle w -> gone_idle (setGenerateAudio v w).
Proof. setter_gone. Qed.
Lemma setIsLoading_gone v : forall w, gone_idle w -> gone_idle (setIsLoading v w).
Proof. setter_gone. Qed.
Lemma setIsFetchingStatus_gone v :
  forall w, gone_idle w -> gone_idle (setIsFetchingStatus v w).
Proof. setter_gone. Qed.
Lemma setError_gone v : forall w, gone_idle w -> gone_idle (setError v w).
Proof. setter_gone. Qed.
Lemma withInflight_gone l : forall w, gone_idle w -> gone_idle (withInflight l w).
Proof. intros w H; exact H. Qed.
Lemma withNextId_gone n : forall w, gone_idle w -> gone_idle (withNextId n w).
Proof. intros w H; exact H. Qed.
Lemma call_gone p : forall w, gone_idle w -> gone_idle (call p w).
Proof. intros w H; exact H. Qed.

Lemma clearPollingInterval_gone :
  forall w, gone_idle w -> gone_idle (clearPollingInterval w).
Proof.
  intros w H M. unfold clearPollingInterval in *.
  destruct (pollingIntervalRef w) eqn:R; [|exact (H M)].
  destruct (H M) as [R' _]. congruence.
Qed.

Lemma clear_mounted (w : World) : mounted (clearPollingInterval w) = mounted w.
Proof. unfold clearPollingInterval. destruct (pollingIntervalRef w); reflexivity. Qed.

Lemma effectBody_mounted (w : World) : mounted (effectBody w) = mounted w.
Proof.
  unfold effectBody.
  destruct (currentJob w) as [j|]; [destruct (pollable (Some j))|];
    unfold setInterval; cbn [mounted withNextId withTimers];
    apply clear_mounted.
Qed.

Lemma commit_mounted (w : World) : mounted (commit w) = mounted w.
Proof.
  unfold commit. destruct (mounted w) eqn:M; [|exact M].
  destruct (deps_eqb (effectDeps w) (deps w)); [exact M|].
  cbn [mounted withEffectDeps].
  rewrite effectBody_mounted, clear_mounted. exact M.
Qed.

Lemma commit_gone : forall w, gone_idle w -> gone_idle (commit w).
Proof.
  intros w H M. rewrite commit_mounted in M.
  unfold commit. rewrite M. exact (H M).
Qed.

Lemma unmount_gone (w : World) :
  timers_ok w -> gone_idle (unmounted (clearPollingInterval w)).
Proof. intros OK _. exact (clear_idle w OK). Qed.

Ltac gone_step :=
  lazymatch goal with
  | H : gone_idle ?w |- gone_idle ?w => exact H
  | |- gone_idle (unmounted (clearPollingInterval _)) => apply unmount_gone; assumption
  | |- gone_idle (clearPollingInterval _) => apply clearPollingInterval_gone
  | |- gone_idle (commit _) => apply commit_gone
  | |- gone_idle (setCurrentJob _ _) => apply setCurrentJob_gone
  | |- gone_idle (setCurrentPrompt _ _) => apply setCurrentPrompt_gone
  | |- gone_idle (setInitialImage _ _) => apply setInitialImage_gone
  | |- gone_idle (setAspectRatio _ _) => apply setAspectRatio_gone
  | |- gone_idle (setDuration _ _) => apply setDuration_gone
  | |- gone_idle (setGenerateAudio _ _) => apply setGenerateAudio_gone
  | |- gone_idle (setIsLoading _ _) => apply setIsLoading_gone
  | |- gone_idle (setIsFetchingStatus _ _) => apply setIsFetchingStatus_gone
  | |- gone_idle (setError _ _) => apply setError_gone
  | |- gone_idle (withInflight _ _) => apply withInflight_gone
  | |- gone_idle (withNextId _ _) => apply withNextId_gone
  | |- gone_idle (call _ _) => apply call_gone
  | |- gone_idle (match ?x with _ => _ end) => destruct x
  end.

Ltac gone := cbv zeta; repeat (gone_step; cbv zeta).

Section Invariants.

Variable DEFAULT_ASPECT_RATIO : string.
Variable DEFAULT_DURATION_SECONDS : Z.
Variable DEFAULT_GENERATE_AUDIO : bool.

Local Notation mount :=
  (mount DEFAULT_ASPECT_RATIO DEFAULT_DURATION_SECONDS DEFAULT_GENERATE_AUDIO).
Local Notation step :=
  (step DEFAULT_ASPECT_RATIO DEFAULT_DURATION_SECONDS DEFAULT_GENERATE_AUDIO).
Local Notation handle :=
  (handle DEFAULT_ASPECT_RATIO DEFAULT_DURATION_SECONDS DEFAULT_GENERATE_AUDIO).
Local Notation reachable :=
  (reachable DEFAULT_ASPECT_RATIO DEFAULT_DURATION_SECONDS DEFAULT_GENERATE_AUDIO).

Lemma handle_ok (e : Event) (w : World) : timers_ok w -> timers_ok (handle e w).
Proof.
  intro H.
  destruct e;
    unfold Poller.handle, handleImageUpload, handleInitiateVideo,
      handleFetchStatusManual, handleClearJob, intervalCallback,
      intervalContinuation, manualContinuation, initiateContinuation,
      cancelContinuation, statusFetched, clearJob;
    ok.
Qed.

Lemma step_ok (w : World) (e : Event) : timers_ok w -> timers_ok (step w e).
Proof.
  intro H. unfold Poller.step.
  destruct e; try (destruct (mounted w); [|exact H]);
    apply commit_ok, handle_ok, H.
Qed.

Lemma reachable_ok (w : World) : reachable w -> timers_ok w.
Proof.
  induction 1 as [|w e _ IH]; [exact I | apply step_ok, IH].
Qed.

Lemma handle_gone (e : Event) (w : World) :
  timers_ok w -> gone_idle w -> gone_idle (handle e w).
Proof.
  intros OK H.
  destruct e;
    unfold Poller.handle, handleImageUpload, handleInitiateVideo,
      handleFetchStatusManual, handleClearJob, intervalCallback,
      intervalContinuation, manualContinuation, initiateContinuation,
      cancelContinuation, statusFetched, clearJob;
    gone.
Qed.

Lemma step_gone (w : World) (e : Event) :
  timers_ok w -> gone_idle w -> gone_idle (step w e).
Proof.
  intros OK H. unfold Poller.step.
  destruct e; try (destruct (mounted w); [|exact H]);
    apply commit_gone, handle_gone; assumption.
Qed.

Lemma reachable_gone (w : World) : reachable w -> gone_idle w.
Proof.
  induction 1 as [|w e R IH]; [intro; discriminate|].
  apply step_gone; [apply reachable_ok, R | exact IH].
Qed.

(** After a commit the effect is up to date. *)
Lemma commit_synced (w : World) : synced (commit w).
Proof.
  unfold synced, commit. destruct (mounted w) eqn:M; [|congruence].
  destruct (deps_eqb (effectDeps w) (deps w)) eqn:D.
  - intros _. apply deps_eqb_eq, D.
  - intros _.
    change (deps w = deps (effectBody (clearPollingInterval w))).
    rewrite effectBody_deps, clear_deps. reflexivity.
Qed.

Lemma step_synced (w : World) (e : Event) : synced w -> synced (step w e).
Proof.
  intro H. unfold Poller.step.
  destruct e; try (destruct (mounted w) eqn:M; [|exact H]); apply commit_synced.
Qed.

Lemma reachable_synced (w : World) : reachable w -> synced w.
Proof.
  induction 1 as [|w e _ IH]; [intros _; reflexivity | apply step_synced, IH].
Qed.

(** *** What a commit does to an idle component *)



(** Opens a world that satisfies [timers_ok] into its two possible shapes. *)
Ltac open_ok w OK :=
  destruct w as [m cj cp ii ar du ga il ifs er [id|] ed [|t [|t' ts]] rq nx];
  unfold timers_ok in OK; cbn in OK; try contradiction;
  [destruct OK as [OK1 OK2]; subst|].

Ltac run_code :=
  cbv beta iota zeta delta
    [Poller.step Poller.handle clearPollingInterval clearInterval
     call intervalCallback intervalContinuation statusFetched
     handleInitiateVideo initiateContinuation handleFetchStatusManual
     manualContinuation clearJob handleClearJob cancelContinuation
     handleImageUpload
     setCurrentJob setCurrentPrompt setInitialImage setAspectRatio setDuration
     setGenerateAudio setIsLoading setIsFetchingStatus setError
     withTimers withEffectDeps withInflight withNextId unmounted
     mounted currentJob currentPrompt initialImage aspectRatio duration
     generateAudio isLoading isFetchingStatus error pollingIntervalRef
     effectDeps timers inflight nextId
     filter app option_map fst snd];
  rewrite ?Nat.eqb_refl; cbn [negb].


Lemma commit_state (w : World) :
  currentJob (commit w) = currentJob w
  /\ isLoading (commit w) = isLoading w
  /\ isFetchingStatus (commit w) = isFetchingStatus w
  /\ error (commit w) = error w
  /\ inflight (commit w) = inflight w.
Proof.
  unfold commit. destruct (mounted w); [|tauto].
  destruct (deps_eqb (effectDeps w) (deps w)); [tauto|].
  unfold effectBody.
  destruct w as [m cj cp ii ar du ga il ifs er [id|] ed ts rq nx];
    unfold clearPollingInterval, setInterval;
    cbn [currentJob pollingIntervalRef withTimers];
    (destruct cj as [j|]; [destruct (pollable (Some j))|]); cbn; tauto.
Qed.

Lemma commit_unchanged (w : World) :
  effectDeps w = deps w -> commit w = w.
Proof.
  intro E. unfold commit. rewrite E, deps_eqb_refl.
  destruct (mounted w); reflexivity.
Qed.


Lemma status_resolved_job
  (w : World) (req : nat) (now : Z) (updatedJob : obj) (p : Pending)
  (rest : list (nat * Pending)) :
  mounted w = true ->
  take_request req (inflight w) = Some (p, rest) ->
  is_status_call p = true ->
  currentJob (step w (Settle req now (Resolved updatedJob)))
  = Some (mkJob (nextId w) updatedJob).
Proof.
  intros M T S. unfold Poller.step.
  destruct (commit_state (handle (Settle req now (Resolved updatedJob)) w))
    as [C1 _].
  rewrite C1.
  destruct w as [m cj cp ii ar du ga il ifs er [id|] ed ts rq nx].
  all: cbn [mounted] in M; cbn [inflight] in T; subst m.
  all: destruct p; try discriminate S; run_code; rewrite T; run_code;
    destruct (terminal updatedJob); reflexivity.
Qed.

(** C8 (amended).  A status response that arrives is applied without any
    check against the current job: whatever job it carries becomes the
    current job, for the automatic and the manual status call alike. *)
Theorem status_response_always_applied
  (w : World) (req : nat) (now : Z) (updatedJob : obj) (p : Pending)
  (rest : list (nat * Pending)) :
  mounted w = true ->
  take_request req (inflight w) = Some (p, rest) ->
  is_status_call p = true ->
  currentJob (step w (Settle req now (Resolved updatedJob)))
  = Some (mkJob (nextId w) updatedJob)
  /\ job_status (step w (Settle req now (Resolved updatedJob)))
     = lookup "status" updatedJob.
Proof.
  intros M T S. pose proof (status_resolved_job w req now updatedJob p rest M T S) as E.
  split; [exact E|]. unfold job_status. rewrite E. reflexivity.
Qed.


(** X8.  Whenever an automatic poll of a job that is still pollable fails,
    the commit that follows finds [isFetchingStatus] changed and the effect
    sets up a new interval with the guard open: the job and the error message
    stay, and so does polling. *)
Lemma failed_poll_recreates_interval
  (w : World) (req : nat) (now : Z) (msg : option string) (operationId : value)
  (rest : list (nat * Pending)) :
  reachable w -> mounted w = true ->
  isFetchingStatus w = true ->
  pollable (currentJob w) = true ->
  take_request req (inflight w) = Some (PendingPoll operationId, rest) ->
  currentJob (step w (Settle req now (Threw msg))) = currentJob w
  /\ error (step w (Settle req now (Threw msg)))
     = Some (message_or msg "Failed to fetch video status from backend.")
  /\ exists j,
      currentJob w = Some j
      /\ timers (step w (Settle req now (Threw msg)))
         = [mkTimer (nextId w) (mkClosure j false)]
      /\ pollingIntervalRef (step w (Settle req now (Threw msg))) = Some (nextId w).
Proof.
  intros R M F P T. pose proof (reachable_ok w R) as OK.
  pose proof (reachable_synced w R M) as Sy. clear R.
  destruct (currentJob w) as [j|] eqn:J; [|discriminate P].
  unfold Poller.step.
  destruct (commit_state (handle (Settle req now (Threw msg)) w))
    as [C1 [_ [_ [C4 _]]]].
  rewrite C1, C4.
  assert (H : handle (Settle req now (Threw msg)) w
              = w |> withInflight rest
                  |> setError (Some (message_or msg
                                       "Failed to fetch video status from backend."))
                  |> clearPollingInterval |> setIsLoading false
                  |> setIsFetchingStatus false).
  { unfold Poller.handle. rewrite T. reflexivity. }
  rewrite H. clear H C1 C4. unfold deps in Sy.
  open_ok w OK;
    cbn [mounted currentJob isFetchingStatus inflight effectDeps] in *;
    subst; cbn [option_map] in *.
  all: unfold commit, effectBody, deps; run_code; rewrite P;
    unfold deps_eqb; cbn [fst snd addr option_map Bool.eqb];
    rewrite ?Nat.eqb_refl; cbn [andb]; run_code;
    unfold setInterval; run_code;
    split; [reflexivity|]; split; [reflexivity|];
    eexists; split; [reflexivity|]; split; reflexivity.
Qed.

Lemma run_reachable (es : list Event) :
  forall w, reachable w -> reachable (run DEFAULT_ASPECT_RATIO
                                        DEFAULT_DURATION_SECONDS
                                        DEFAULT_GENERATE_AUDIO w es).
Proof.
  induction es as [|e es IH]; intros w R; [exact R|].
  cbn [run fold_left]. apply IH. apply reach_step, R.
Qed.

(** X6.  The guard of the interval callback: in every reachable state in
    which [isFetchingStatus] is set, a tick of the live interval changes
    nothing and starts no request. *)
Lemma tick_guarded (w : World) (id : nat) :
  reachable w -> isFetchingStatus w = true -> step w (Tick id) = w.
Proof.
  intros R F. pose proof (reachable_ok w R) as OK.
  pose proof (reachable_synced w R) as Sy.
  unfold Poller.step. destruct (mounted w) eqn:M; [|reflexivity].
  specialize (Sy M).
  assert (H : handle (Tick id) w = w).
  { unfold Poller.handle, find_timer, intervalCallback.
    destruct w as [m cj cp ii ar du ga il ifs er [i|] ed [|t [|t' ts]] rq nx];
      unfold timers_ok in OK; cbn in OK; try contradiction; [|reflexivity].
    destruct OK as [_ OK]. cbn [isFetchingStatus] in F. subst ifs.
    unfold deps in Sy. cbn [effectDeps currentJob isFetchingStatus] in Sy.
    subst ed. cbn [snd] in OK. cbn [timers find].
    destruct (Nat.eqb (timer_id t) id); [|reflexivity].
    rewrite OK. reflexivity. }
  rewrite H. apply commit_unchanged, Sy.
Qed.

(** *** What one event's code can do before the commit *)

Lemma advanced_refl (w : World) : advanced w w.
Proof.
  unfold advanced. repeat split; auto using incl_refl.
Qed.

Ltac setter_adv :=
  let w0 := fresh "w0" in
  let w := fresh "w" in
  let H := fresh "H" in
  intros w0 w H;
  lazymatch goal with |- advanced _ (?f _ w) => unfold f end;
  let M := fresh "M" in
  destruct (mounted w) eqn:M; [|exact H];
  unfold advanced, fresh_ok in *; cbn; rewrite <- M; exact H.

Lemma setCurrentPrompt_adv v : forall w0 w, advanced w0 w -> advanced w0 (setCurrentPrompt v w).
Proof. setter_adv. Qed.
Lemma setInitialImage_adv v : forall w0 w, advanced w0 w -> advanced w0 (setInitialImage v w).
Proof. setter_adv. Qed.
Lemma setAspectRatio_adv v : forall w0 w, advanced w0 w -> advanced w0 (setAspectRatio v w).
Proof. setter_adv. Qed.
Lemma setDuration_adv v : forall w0 w, advanced w0 w -> advanced w0 (setDuration v w).
Proof. setter_adv. Qed.
Lemma setGenerateAudio_adv v : forall w0 w, advanced w0 w -> advanced w0 (setGenerateAudio v w).
Proof. setter_adv. Qed.
Lemma setIsLoading_adv v : forall w0 w, advanced w0 w -> advanced w0 (setIsLoading v w).
Proof. setter_adv. Qed.
Lemma setIsFetchingStatus_adv v :
  forall w0 w, advanced w0 w -> advanced w0 (setIsFetchingStatus v w).
Proof. setter_adv. Qed.
Lemma setError_adv v : forall w0 w, advanced w0 w -> advanced w0 (setError v w).
Proof. setter_adv. Qed.
Lemma withInflight_adv l : forall w0 w, advanced w0 w -> advanced w0 (withInflight l w).
Proof. intros w0 w H. exact H. Qed.

Ltac adv_split := split; [|split; [|split; [|split; [|split]]]].

Lemma setCurrentJob_None_adv :
  forall w0 w, advanced w0 w -> advanced w0 (setCurrentJob None w).
Proof.
  intros w0 w H. unfold setCurrentJob. destruct (mounted w) eqn:M; [|exact H].
  destruct H as (T & E & Mo & N & J & F).
  unfold advanced, fresh_ok. cbn. adv_split; auto. congruence.
Qed.

(** [setCurrentJob] of a freshly created object. *)
Lemma alloc_adv (fs : obj) :
  forall w0 w, advanced w0 w ->
    advanced w0 (withNextId (S (nextId w))
                   (setCurrentJob (Some (mkJob (nextId w) fs)) w)).
Proof.
  intros w0 w H. destruct H as (T & E & Mo & N & J & F).
  unfold setCurrentJob. destruct (mounted w) eqn:M;
    unfold advanced, fresh_ok, withNextId in *; cbn; adv_split; auto;
    try lia; try congruence.
  - right. right. eexists. split; [reflexivity|]. exact N.
  - intro F0. specialize (F F0). destruct (currentJob w); [lia | exact I].
Qed.

Lemma call_adv p : forall w0 w, advanced w0 w -> advanced w0 (call p w).
Proof.
  intros w0 w H. destruct H as (T & E & Mo & N & J & F).
  unfold advanced, fresh_ok, call, withNextId, withInflight in *. cbn.
  adv_split; auto; try lia.
  intro F0. specialize (F F0). destruct (currentJob w); [lia | exact I].
Qed.

Lemma clearPollingInterval_adv :
  forall w0 w, advanced w0 w -> advanced w0 (clearPollingInterval w).
Proof.
  intros w0 w H. unfold clearPollingInterval.
  destruct (pollingIntervalRef w) as [id|]; [|exact H].
  destruct H as (T & E & Mo & N & J & F).
  unfold advanced, fresh_ok, withTimers, clearInterval in *. cbn.
  adv_split; auto.
  intros t I. apply T. apply filter_In in I. tauto.
Qed.

Ltac adv_step :=
  lazymatch goal with
  | |- advanced ?w ?w => apply advanced_refl
  | |- advanced _ (withNextId (S (nextId ?w)) (setCurrentJob (Some _) ?w)) =>
      apply alloc_adv
  | |- advanced _ (clearPollingInterval _) => apply clearPollingInterval_adv
  | |- advanced _ (setCurrentJob None _) => apply setCurrentJob_None_adv
  | |- advanced _ (setCurrentPrompt _ _) => apply setCurrentPrompt_adv
  | |- advanced _ (setInitialImage _ _) => apply setInitialImage_adv
  | |- advanced _ (setAspectRatio _ _) => apply setAspectRatio_adv
  | |- advanced _ (setDuration _ _) => apply setDuration_adv
  | |- advanced _ (setGenerateAudio _ _) => apply setGenerateAudio_adv
  | |- advanced _ (setIsLoading _ _) => apply setIsLoading_adv
  | |- advanced _ (setIsFetchingStatus _ _) => apply setIsFetchingStatus_adv
  | |- advanced _ (setError _ _) => apply setError_adv
  | |- advanced _ (withInflight _ _) => apply withInflight_adv
  | |- advanced _ (call _ _) => apply call_adv
  | |- advanced _ (match ?x with _ => _ end) => destruct x
  end.

Ltac adv := cbv zeta; repeat (adv_step; cbv zeta).

Lemma handle_advanced (e : Event) (w : World) :
  e <> Unmount -> advanced w (handle e w).
Proof.
  intro NE.
  destruct e; try congruence;
    unfold Poller.handle, handleImageUpload, handleInitiateVideo,
      handleFetchStatusManual, handleClearJob, intervalCallback,
      intervalContinuation, manualContinuation, initiateContinuation,
      cancelContinuation, statusFetched, clearJob;
    adv.
Qed.

(** *** A live interval belongs to the current job *)

Lemma commit_effect (w : World) :
  timers_ok w -> mounted w = true ->
  deps_eqb (effectDeps w) (deps w) = false ->
  (pollable (currentJob w) = false
   /\ timers (commit w) = [] /\ nextId (commit w) = nextId w)
  \/ (exists j, currentJob w = Some j
      /\ pollable (currentJob w) = true
      /\ timers (commit w)
         = [mkTimer (nextId w) (mkClosure j (isFetchingStatus w))]
      /\ pollingIntervalRef (commit w) = Some (nextId w)
      /\ nextId (commit w) = S (nextId w)).
Proof.
  intros OK M D. unfold commit. rewrite M, D. unfold effectBody.
  assert (C : currentJob (clearPollingInterval w) = currentJob w).
  { unfold clearPollingInterval. destruct (pollingIntervalRef w); reflexivity. }
  assert (Fl : isFetchingStatus (clearPollingInterval w) = isFetchingStatus w).
  { unfold clearPollingInterval. destruct (pollingIntervalRef w); reflexivity. }
  assert (Nx : nextId (clearPollingInterval w) = nextId w).
  { unfold clearPollingInterval. destruct (pollingIntervalRef w); reflexivity. }
  destruct (clear_idle w OK) as [R T].
  assert (CC : clearPollingInterval (clearPollingInterval w)
               = clearPollingInterval w).
  { unfold clearPollingInterval at 1. rewrite R. reflexivity. }
  rewrite C.
  destruct (currentJob w) as [j|] eqn:J.
  - destruct (pollable (Some j)) eqn:P.
    + right. exists j. rewrite CC. unfold setInterval. cbn.
      rewrite T, Fl, Nx. repeat split; reflexivity.
    + left. rewrite CC. cbn. rewrite T, Nx. repeat split; reflexivity.
  - left. rewrite CC. cbn. rewrite T, Nx. repeat split; reflexivity.
Qed.

Lemma commit_nextId (w : World) : (nextId w <= nextId (commit w))%nat.
Proof.
  unfold commit. destruct (mounted w); [|lia].
  destruct (deps_eqb (effectDeps w) (deps w)); [lia|].
  unfold effectBody, setInterval.
  assert (Nx : nextId (clearPollingInterval w) = nextId w).
  { unfold clearPollingInterval. destruct (pollingIntervalRef w); reflexivity. }
  assert (Nx2 : nextId (clearPollingInterval (clearPollingInterval w)) = nextId w).
  { unfold clearPollingInterval at 1.
    destruct (pollingIntervalRef (clearPollingInterval w)); exact Nx. }
  destruct (currentJob (clearPollingInterval w));
    [destruct (pollable _)|]; cbn; rewrite Nx2; lia.
Qed.

Lemma commit_fresh (w : World) : fresh_ok w -> fresh_ok (commit w).
Proof.
  unfold fresh_ok. destruct (commit_state w) as [C _]. rewrite C.
  pose proof (commit_nextId w). destruct (currentJob w); [lia | auto].
Qed.

Lemma incl_nil_eq (A : Type) (l : list A) : incl l [] -> l = [].
Proof.
  destruct l as [|a l]; [reflexivity|]. intro H. destruct (H a (or_introl eq_refl)).
Qed.

Lemma step_live (w : World) (e : Event) :
  timers_ok w -> synced w -> gone_idle w -> fresh_ok w -> live_ok w ->
  live_ok (step w e) /\ fresh_ok (step w e).
Proof.
  intros OK Sy G F L.
  assert (U : mounted w = false -> live_ok w /\ fresh_ok w) by auto.
  assert (Main : e <> Unmount ->
                 live_ok (commit (handle e w)) /\ fresh_ok (commit (handle e w))).
  { intro NE. pose proof (handle_advanced e w NE) as (T & E & Mo & N & J & F').
    pose proof (handle_ok e w OK) as OK'.
    split; [|apply commit_fresh, F', F].
    destruct (mounted (handle e w)) eqn:M.
    - destruct (deps_eqb (effectDeps (handle e w)) (deps (handle e w))) eqn:D.
      + unfold commit. rewrite M, D.
        apply deps_eqb_eq in D. rewrite E, (Sy (eq_sym Mo)) in D.
        unfold deps in D. injection D as D1 D2.
        assert (Jeq : currentJob (handle e w) = currentJob w).
        { destruct J as [J|[J|[j [J Hj]]]]; [exact J| |].
          - rewrite J in *. destruct (currentJob w); [discriminate | reflexivity].
          - rewrite J in D1. unfold fresh_ok in F.
            destruct (currentJob w) as [j0|]; [|discriminate].
            cbn in D1. injection D1 as D1. lia. }
        intros t I. destruct (L t (T t I)) as (L1 & L2 & L3 & L4).
        rewrite Jeq, <- D2. auto.
      + destruct (commit_effect (handle e w) OK' M D)
          as [(P & Tm & _)|(j & Jj & P & Tm & _)].
        * intros t I. rewrite Tm in I. destruct I.
        * intros t I. rewrite Tm in I. destruct I as [<-|[]].
          destruct (commit_state (handle e w)) as (C1 & _ & C3 & _).
          rewrite commit_mounted, C1, C3. cbn. auto.
    - unfold commit. rewrite M.
      destruct (G (eq_sym Mo)) as [_ Tw]. rewrite Tw in T. apply incl_nil_eq in T.
      intros t I. rewrite T in I. destruct I. }
  unfold Poller.step.
  destruct e; try (destruct (mounted w) eqn:M; [|auto]);
    try (apply Main; discriminate).
  (* Unmount *)
  unfold commit, Poller.handle.
  destruct (clear_idle w OK) as [_ T].
  cbn [unmounted mounted]. split.
  - intros t I. cbn [timers unmounted] in I. rewrite T in I. destruct I.
  - unfold fresh_ok in *. cbn [currentJob nextId unmounted].
    unfold clearPollingInterval. destruct (pollingIntervalRef w); exact F.
Qed.

Lemma reachable_live (w : World) : reachable w -> live_ok w /\ fresh_ok w.
Proof.
  induction 1 as [|w e R [L F]].
  - split; [intros t []| exact I].
  - apply step_live; auto using reachable_ok, reachable_synced, reachable_gone.
Qed.

(** *** Start calls in flight carry the form's parameters *)

Lemma take_request_good (req : nat) (l : list (nat * Pending)) :
  Forall (fun rp => good_pending (snd rp)) l ->
  forall p rest, take_request req l = Some (p, rest) ->
    good_pending p /\ Forall (fun rp => good_pending (snd rp)) rest.
Proof.
  induction 1 as [|[r q] l Hq Hl IH]; intros p rest T; [discriminate|].
  cbn [take_request] in T. destruct (Nat.eqb r req).
  - injection T as <- <-. auto.
  - destruct (take_request req l) as [[q' rest']|]; [|discriminate].
    injection T as <- <-. destruct (IH q' rest' eq_refl) as [G R]. auto.
Qed.

Ltac setter_ini :=
  let w := fresh "w" in
  let H := fresh "H" in
  intros w H;
  lazymatch goal with |- inits_ok (?f _ w) => unfold f end;
  destruct (mounted w); exact H.

Lemma setCurrentJob_ini v : forall w, inits_ok w -> inits_ok (setCurrentJob v w).
Proof. setter_ini. Qed.
Lemma setCurrentPrompt_ini v : forall w, inits_ok w -> inits_ok (setCurrentPrompt v w).
Proof. setter_ini. Qed.
Lemma setInitialImage_ini v : forall w, inits_ok w -> inits_ok (setInitialImage v w).
Proof. setter_ini. Qed.
Lemma setAspectRatio_ini v : forall w, inits_ok w -> inits_ok (setAspectRatio v w).
Proof. setter_ini. Qed.
Lemma setDuration_ini v : forall w, inits_ok w -> inits_ok (setDuration v w).
Proof. setter_ini. Qed.
Lemma setGenerateAudio_ini v : forall w, inits_ok w -> inits_ok (setGenerateAudio v w).
Proof. setter_ini. Qed.
Lemma setIsLoading_ini v : forall w, inits_ok w -> inits_ok (setIsLoading v w).
Proof. setter_ini. Qed.
Lemma setIsFetchingStatus_ini v :
  forall w, inits_ok w -> inits_ok (setIsFetchingStatus v w).
Proof. setter_ini. Qed.
Lemma setError_ini v : forall w, inits_ok w -> inits_ok (setError v w).
Proof. setter_ini. Qed.
Lemma withNextId_ini n : forall w, inits_ok w -> inits_ok (withNextId n w).
Proof. intros w H. exact H. Qed.
Lemma unmounted_ini : forall w, inits_ok w -> inits_ok (unmounted w).
Proof. intros w H. exact H. Qed.
Lemma clearPollingInterval_ini :
  forall w, inits_ok w -> inits_ok (clearPollingInterval w).
Proof.
  intros w H. unfold clearPollingInterval.
  destruct (pollingIntervalRef w); exact H.
Qed.
Lemma withInflight_ini l (w : World) :
  Forall (fun rp => good_pending (snd rp)) l -> inits_ok (withInflight l w).
Proof. intro H. exact H. Qed.
Lemma call_ini p (w : World) :
  good_pending p -> inits_ok w -> inits_ok (call p w).
Proof.
  intros G H. unfold inits_ok, call. cbn.
  apply Forall_app. split; [exact H|]. constructor; [exact G | constructor].
Qed.
Lemma commit_ini (w : World) : inits_ok w -> inits_ok (commit w).
Proof.
  unfold inits_ok. destruct (commit_state w) as (_ & _ & _ & _ & C).
  rewrite C. auto.
Qed.

Ltac ini_step :=
  lazymatch goal with
  | H : inits_ok ?w |- inits_ok ?w => exact H
  | |- inits_ok (withInflight _ _) => apply withInflight_ini; assumption
  | |- inits_ok (call _ _) => apply call_ini; [first [exact I | reflexivity]|]
  | |- inits_ok (clearPollingInterval _) => apply clearPollingInterval_ini
  | |- inits_ok (commit _) => apply commit_ini
  | |- inits_ok (setCurrentJob _ _) => apply setCurrentJob_ini
  | |- inits_ok (setCurrentPrompt _ _) => apply setCurrentPrompt_ini
  | |- inits_ok (setInitialImage _ _) => apply setInitialImage_ini
  | |- inits_ok (setAspectRatio _ _) => apply setAspectRatio_ini
  | |- inits_ok (setDuration _ _) => apply setDuration_ini
  | |- inits_ok (setGenerateAudio _ _) => apply setGenerateAudio_ini
  | |- inits_ok (setIsLoading _ _) => apply setIsLoading_ini
  | |- inits_ok (setIsFetchingStatus _ _) => apply setIsFetchingStatus_ini
  | |- inits_ok (setError _ _) => apply setError_ini
  | |- inits_ok (withNextId _ _) => apply withNextId_ini
  | |- inits_ok (unmounted _) => apply unmounted_ini
  | |- inits_ok (match ?x with _ => _ end) => destruct x
  end.

Ltac ini := cbv zeta; repeat (ini_step; cbv zeta).

Lemma handle_ini (e : Event) (w : World) : inits_ok w -> inits_ok (handle e w).
Proof.
  intro H.
  destruct e;
    unfold Poller.handle, handleImageUpload, handleInitiateVideo,
      handleFetchStatusManual, handleClearJob, intervalCallback;
    try (destruct (take_request req (inflight w)) as [[p rest]|] eqn:T;
         [destruct (take_request_good req (inflight w) H p rest T) as [Gp Gr]|]);
    unfold intervalContinuation, manualContinuation, initiateContinuation,
      cancelContinuation, statusFetched, clearJob;
    ini.
Qed.

Lemma reachable_ini (w : World) : reachable w -> inits_ok w.
Proof.
  induction 1 as [|w e R IH]; [constructor|].
  unfold Poller.step.
  destruct e; try (destruct (mounted w); [|exact IH]);
    apply commit_ini, handle_ini, IH.
Qed.

(** *** Properties of the timer and its ticks *)

(** X9.  In every reachable state a live interval belongs to the current
    job: the component is mounted, the callback captured exactly the job and
    the [isFetchingStatus] the component holds now, and that job has an
    operation id and is GENERATING or RUNNING.  So no interval is live while
    there is no job, while the job is SUCCEEDED or FAILED, or after the
    unmount. *)
Theorem live_interval_polls_current_job (w : World) :
  reachable w ->
  (forall t, In t (timers w) ->
     mounted w = true
     /\ currentJob w = Some (cl_currentJob (timer_closure t))
     /\ pollable (currentJob w) = true
     /\ cl_isFetchingStatus (timer_closure t) = isFetchingStatus w)
  /\ (pollable (currentJob w) = false -> timers w = [])
  /\ (mounted w = false -> timers w = []).
Proof.
  intro R. destruct (reachable_live w R) as [L _].
  split; [exact L|]. split.
  - intro P. destruct (timers w) as [|t ts] eqn:T; [reflexivity|].
    assert (I : In t (timers w)) by (rewrite T; left; reflexivity).
    destruct (L t I) as (_ & _ & P' & _). congruence.
  - intro M. exact (proj2 (reachable_gone w R M)).
Qed.

(** X7.  A tick of the live interval with the guard open sends exactly one
    status request, for the operation id of the current job; it sets
    [isFetchingStatus], clears the error message, keeps the job, and the
    interval is replaced by one whose guard is closed. *)
Theorem tick_polls_current_job (w : World) (id : nat) (t : Timer) :
  reachable w ->
  find_timer id (timers w) = Some t ->
  isFetchingStatus w = false ->
  exists j,
    currentJob w = Some j
    /\ truthy (job_get j "operationId") = true
    /\ inflight (step w (Tick id))
       = (inflight w ++ [(nextId w, PendingPoll (job_get j "operationId"))])%list
    /\ currentJob (step w (Tick id)) = Some j
    /\ isFetchingStatus (step w (Tick id)) = true
    /\ error (step w (Tick id)) = None
    /\ timers (step w (Tick id)) = [mkTimer (S (nextId w)) (mkClosure j true)].
Proof.
  intros R Ft Fl. destruct (reachable_live w R) as [L _].
  pose proof (reachable_ok w R) as OK. pose proof (reachable_synced w R) as Sy.
  pose proof Ft as Ft'. unfold find_timer in Ft'. apply find_some in Ft'.
  destruct Ft' as [I _]. destruct (L t I) as (M & J & P & Cf).
  specialize (Sy M). rewrite Fl in Cf.
  exists (cl_currentJob (timer_closure t)). split; [exact J|].
  split.
  { rewrite J in P. unfold pollable in P. apply andb_prop in P. tauto. }
  pose proof (handle_ok (Tick id) w OK) as OK'.
  assert (H : handle (Tick id) w
              = w |> setIsFetchingStatus true |> setError None
                  |> call (PendingPoll
                             (job_get (cl_currentJob (timer_closure t))
                                "operationId"))).
  { unfold Poller.handle. rewrite Ft. unfold intervalCallback. rewrite Cf.
    reflexivity. }
  unfold Poller.step. rewrite M. rewrite H in *. clear H.
  match goal with |- context [commit ?x] => set (w' := x) in * end.
  assert (F' : mounted w' = true /\ currentJob w' = currentJob w
               /\ isFetchingStatus w' = true /\ error w' = None
               /\ nextId w' = S (nextId w)
               /\ effectDeps w' = effectDeps w
               /\ inflight w'
                  = (inflight w
                       ++ [(nextId w,
                            PendingPoll (job_get (cl_currentJob (timer_closure t))
                                           "operationId"))])%list).
  { subst w'. clear - M.
    destruct w as [m cj cp ii ar du ga il ifs er rf ed ts rq nx].
    cbn [mounted] in M. subst m. cbn. repeat split. }
  destruct F' as (M' & J' & Fl' & E' & N' & D' & I').
  assert (D : deps_eqb (effectDeps w') (deps w') = false).
  { rewrite D', Sy. unfold deps. rewrite J', Fl', Fl, J. cbn.
    apply andb_false_r. }
  destruct (commit_state w') as (C1 & _ & C3 & C4 & C5).
  rewrite C1, C3, C4, C5, J', Fl', E', I', J.
  destruct (commit_effect w' OK' M' D) as [(P' & _)|(j & Jj & _ & Tm & _)].
  - rewrite J', P in P'. discriminate.
  - rewrite Tm, N', Fl'. rewrite J', J in Jj. injection Jj as <-.
    repeat split; reflexivity.
Qed.

(** *** Auxiliary facts for the handlers *)

Lemma commit_cells (w : World) : cells (commit w) = cells w.
Proof.
  unfold commit. destruct (mounted w); [|reflexivity].
  destruct (deps_eqb (effectDeps w) (deps w)); [reflexivity|].
  unfold effectBody.
  destruct w as [m cj cp ii ar du ga il ifs er [id|] ed ts rq nx];
    unfold clearPollingInterval, setInterval;
    cbn [currentJob pollingIntervalRef withTimers];
    (destruct cj as [j|]; [destruct (pollable (Some j))|]); reflexivity.
Qed.

Lemma commit_synced_noop (w : World) :
  reachable w -> mounted w = true -> commit w = w.
Proof.
  intros R M. apply commit_unchanged. exact (reachable_synced w R M).
Qed.

Lemma take_request_incl (req : nat) (l : list (nat * Pending)) :
  forall p rest, take_request req l = Some (p, rest) -> incl rest l.
Proof.
  induction l as [|[r q] l IH]; intros p rest T; [discriminate|].
  cbn [take_request] in T. destruct (Nat.eqb r req).
  - injection T as <- <-. apply incl_tl, incl_refl.
  - destruct (take_request req l) as [[q' rest']|]; [|discriminate].
    injection T as <- <-. intros x [<-|I]; [left; reflexivity|].
    right. exact (IH q' rest' eq_refl x I).
Qed.

Lemma lookup_app_in (k : string) (a b : obj) :
  In k (map fst a) -> lookup k (a ++ b)%list = lookup k a.
Proof.
  induction a as [|[k' v] a IH]; [intros []|].
  cbn [map fst In lookup app]. destruct (String.eqb_spec k k') as [->|NE].
  - reflexivity.
  - intros [E|I]; [congruence | exact (IH I)].
Qed.

Lemma lookup_app_notin (k : string) (a b : obj) :
  ~ In k (map fst a) -> lookup k (a ++ b)%list = lookup k b.
Proof.
  induction a as [|[k' v] a IH]; [reflexivity|].
  cbn [map fst In lookup app]. intro N.
  destruct (String.eqb_spec k k') as [->|NE]; [tauto|].
  apply IH. tauto.
Qed.

(** *** Unmount, reset and cancellation *)

Lemma settle_after_unmount
  (w : World) (req : nat) (now : Z) (r : Settled) (p : Pending)
  (rest : list (nat * Pending)) :
  mounted w = false -> pollingIntervalRef w = None ->
  take_request req (inflight w) = Some (p, rest) ->
  exists n, handle (Settle req now r) w = withNextId n (withInflight rest w).
Proof.
  intros M Rf T. unfold Poller.handle. rewrite T. clear T.
  destruct w as [m cj cp ii ar du ga il ifs er rf ed ts rq nx].
  cbn [mounted pollingIntervalRef] in *. subst.
  destruct p; destruct r; run_code;
    try destruct (terminal result); run_code; eexists; reflexivity.
Qed.

(** X10.  After the unmount nothing happens any more: whatever event
    arrives (a late response of a call in flight included), the nine state
    cells keep their values, no interval exists, and no request is started.  *)
Theorem nothing_happens_after_unmount (w : World) (e : Event) :
  reachable w -> mounted w = false ->
  cells (step w e) = cells w
  /\ timers (step w e) = []
  /\ mounted (step w e) = false
  /\ incl (inflight (step w e)) (inflight w).
Proof.
  intros R M. destruct (reachable_gone w R M) as [Rf Tm].
  unfold Poller.step.
  destruct e; rewrite ?M; try (repeat split; auto using incl_refl; fail).
  destruct (take_request req (inflight w)) as [[p rest]|] eqn:T.
  - destruct (settle_after_unmount w req now r p rest M Rf T) as [n H].
    rewrite H. unfold commit. cbn [mounted withNextId withInflight].
    rewrite M. unfold cells. cbn.
    repeat split; auto. exact (take_request_incl req (inflight w) p rest T).
  - unfold Poller.handle. rewrite T. unfold commit. rewrite M.
    repeat split; auto using incl_refl.
Qed.

(** X11.  A reset brings the component back to its initial state: after
    [handleClearJob] has run to its end, be it at once (no job to cancel) or
    when the cancel call settles, all nine state cells hold their initial
    values again; in particular the message about a failed cancellation is
    overwritten before it can be shown. *)
Theorem reset_restores_initial_state (w : World) :
  mounted w = true ->
  (clearDisabled w = false -> pollable (currentJob w) = false ->
   cells (step w ClickClear) = cells mount)
  /\ (forall req now r operationId rest,
        take_request req (inflight w) = Some (PendingCancel operationId, rest) ->
        cells (step w (Settle req now r)) = cells mount).
Proof.
  intro M. split.
  - intros C P. unfold Poller.step. rewrite M, commit_cells.
    unfold Poller.handle. rewrite C. unfold handleClearJob. rewrite P.
    destruct w as [m cj cp ii ar du ga il ifs er [id|] ed ts rq nx];
      cbn [mounted] in M; subst m; destruct cj;
      unfold cells, Poller.mount; run_code; reflexivity.
  - intros req now r op rest T. unfold Poller.step. rewrite commit_cells.
    unfold Poller.handle. rewrite T.
    destruct w as [m cj cp ii ar du ga il ifs er [id|] ed ts rq nx];
      cbn [mounted] in M; subst m; destruct r;
      unfold cells, Poller.mount; run_code; reflexivity.
Qed.

(** X12.  Nothing in the component depends on how the relay's cancel call
    ended: the whole state after the call settled (cells, timer, calls in
    flight) is the same for a success and for a failure. *)
Theorem cancel_outcome_irrelevant
  (w : World) (req : nat) (now1 now2 : Z) (r1 r2 : Settled)
  (operationId : value) (rest : list (nat * Pending)) :
  take_request req (inflight w) = Some (PendingCancel operationId, rest) ->
  step w (Settle req now1 r1) = step w (Settle req now2 r2).
Proof.
  intro T. unfold Poller.step. f_equal. unfold Poller.handle. rewrite T.
  destruct w as [m cj cp ii ar du ga il ifs er [id|] ed ts rq nx];
    destruct m; destruct r1; destruct r2; run_code; reflexivity.
Qed.

(** *** Starting a job *)

Lemma new_job_fields (params : obj) (now : Z) (operationId : value) :
  map fst params = param_keys ->
  lookup "status" (newJob params now operationId) = VStr "GENERATING"
  /\ lookup "operationId" (newJob params now operationId) = operationId
  /\ lookup "id" (newJob params now operationId) = VStr ("job_" ++ show_Z now)
  /\ lookup "videoBase64" (newJob params now operationId) = VNull
  /\ lookup "errorMessage" (newJob params now operationId) = VNull
  /\ lookup "progress" (newJob params now operationId) = VNum 0
  /\ (forall k, In k param_keys ->
      lookup k (newJob params now operationId) = lookup k params).
Proof.
  intro K. unfold newJob.
  repeat split;
    try (rewrite lookup_app_notin;
         [reflexivity | rewrite K; cbn; intuition discriminate]).
  intros k I. apply lookup_app_in. rewrite K. exact I.
Qed.

Lemma init_resolved_job
  (w : World) (req : nat) (now : Z) (result params : obj)
  (rest : list (nat * Pending)) :
  reachable w -> mounted w = true ->
  take_request req (inflight w) = Some (PendingInit params, rest) ->
  exists j,
    currentJob (step w (Settle req now (Resolved result))) = Some j
    /\ job_get j "status" = VStr "GENERATING"
    /\ job_get j "operationId" = lookup "operationId" result
    /\ job_get j "id" = VStr ("job_" ++ show_Z now)
    /\ job_get j "videoBase64" = VNull
    /\ job_get j "errorMessage" = VNull
    /\ job_get j "progress" = VNum 0
    /\ (forall k, In k param_keys -> job_get j k = lookup k params)
    /\ isLoading (step w (Settle req now (Resolved result))) = isLoading w
    /\ (truthy (lookup "operationId" result) = true ->
        timers (step w (Settle req now (Resolved result)))
        = [mkTimer (S (nextId w)) (mkClosure j (isFetchingStatus w))])
    /\ (truthy (lookup "operationId" result) = false ->
        timers (step w (Settle req now (Resolved result))) = []).
Proof.
  intros R M T.
  pose proof (reachable_ok w R) as OK. pose proof (reachable_synced w R M) as Sy.
  destruct (reachable_live w R) as [_ F].
  destruct (take_request_good req (inflight w) (reachable_ini w R) _ _ T)
    as [K _]. cbn [good_pending] in K.
  destruct (new_job_fields params now (lookup "operationId" result) K)
    as (N1 & N2 & N3 & N4 & N5 & N6 & N7).
  pose proof (handle_ok (Settle req now (Resolved result)) w OK) as OK'.
  set (j := mkJob (nextId w) (newJob params now (lookup "operationId" result))).
  assert (H : handle (Settle req now (Resolved result)) w
              = w |> withInflight rest |> setCurrentJob (Some j)
                  |> withNextId (S (nextId w))).
  { unfold Poller.handle. rewrite T. reflexivity. }
  unfold Poller.step. rewrite H in *. clear H.
  match goal with |- context [commit ?x] => set (w' := x) in * end.
  assert (F' : mounted w' = true /\ currentJob w' = Some j
               /\ isFetchingStatus w' = isFetchingStatus w
               /\ isLoading w' = isLoading w
               /\ nextId w' = S (nextId w)
               /\ effectDeps w' = effectDeps w).
  { subst w'. clear - M.
    destruct w as [m cj cp ii ar du ga il ifs er rf ed ts rq nx].
    cbn [mounted] in M. subst m. cbn. repeat split. }
  destruct F' as (M' & J' & Fl' & L' & Nx' & D').
  assert (D : deps_eqb (effectDeps w') (deps w') = false).
  { rewrite D', Sy. unfold deps. rewrite J', Fl'. unfold deps_eqb, fresh_ok in *.
    cbn [fst snd option_map addr j]. destruct (currentJob w) as [j0|]; cbn.
    - replace (Nat.eqb (addr j0) (nextId w)) with false; [reflexivity|].
      symmetry. apply Nat.eqb_neq. lia.
    - reflexivity. }
  destruct (commit_state w') as (C1 & C2 & _).
  exists j. rewrite C1, C2, J', L'.
  split; [reflexivity|].
  unfold job_get. cbn [fields j].
  repeat (split; [assumption|]). split; [reflexivity|].
  assert (P : pollable (currentJob w') = truthy (lookup "operationId" result)).
  { rewrite J'. unfold pollable, job_get. cbn [fields j]. rewrite N1, N2.
    cbn. apply andb_true_r. }
  destruct (commit_effect w' OK' M' D) as [(P' & Tm & _)|(j1 & Jj & P' & Tm & _)].
  - split; intro Tr; [rewrite P, Tr in P'; discriminate | exact Tm].
  - split; intro Tr; [|rewrite P, Tr in P'; discriminate].
    rewrite Tm, Nx', Fl'. rewrite J' in Jj. injection Jj as <-. reflexivity.
Qed.

(** X13.  When the start call resolves, the job that is created has the
    parameters the form held when Generate was clicked (not the ones it holds
    now), the operation id of the response, status GENERATING, no video, no
    error message and progress 0.  Polling starts at that moment exactly when
    the response carried a truthy operation id. *)
Theorem start_creates_generating_job
  (w : World) (req : nat) (now : Z) (result params : obj)
  (rest : list (nat * Pending)) :
  reachable w -> mounted w = true ->
  take_request req (inflight w) = Some (PendingInit params, rest) ->
  exists j,
    currentJob (step w (Settle req now (Resolved result))) = Some j
    /\ job_get j "status" = VStr "GENERATING"
    /\ job_get j "operationId" = lookup "operationId" result
    /\ job_get j "id" = VStr ("job_" ++ show_Z now)
    /\ job_get j "videoBase64" = VNull
    /\ job_get j "errorMessage" = VNull
    /\ job_get j "progress" = VNum 0
    /\ (forall k, In k param_keys -> job_get j k = lookup k params)
    /\ isLoading (step w (Settle req now (Resolved result))) = isLoading w
    /\ (truthy (lookup "operationId" result) = true ->
        timers (step w (Settle req now (Resolved result)))
        = [mkTimer (S (nextId w)) (mkClosure j (isFetchingStatus w))])
    /\ (truthy (lookup "operationId" result) = false ->
        timers (step w (Settle req now (Resolved result))) = []).
Proof. exact (init_resolved_job w req now result params rest). Qed.

Lemma step_noop (w : World) (e : Event) :
  reachable w -> mounted w = true -> handle e w = w -> step w e = w.
Proof.
  intros R M H. unfold Poller.step. rewrite H.
  destruct e; rewrite ?M; apply commit_synced_noop; assumption.
Qed.

(** X14.  If the start call resolves without an operation id while the
    busy flag is set, the component is stuck: the job is GENERATING, nothing
    polls it, and every control of the page is disabled (the three buttons,
    the prompt, the parameters and the file input all do nothing). *)
Theorem start_without_operation_id_locks_ui
  (w : World) (req : nat) (now : Z) (result params : obj)
  (rest : list (nat * Pending)) :
  reachable w -> mounted w = true -> isLoading w = true ->
  take_request req (inflight w) = Some (PendingInit params, rest) ->
  truthy (lookup "operationId" result) = false ->
  job_status (step w (Settle req now (Resolved result))) = VStr "GENERATING"
  /\ timers (step w (Settle req now (Resolved result))) = []
  /\ generateDisabled (step w (Settle req now (Resolved result))) = true
  /\ fetchDisabled (step w (Settle req now (Resolved result))) = true
  /\ clearDisabled (step w (Settle req now (Resolved result))) = true
  /\ (forall e,
        match e with
        | Tick _ | Settle _ _ _ | Unmount | ImageLoaded _ | ImageReadError
        | ClearError => True
        | _ => step (step w (Settle req now (Resolved result))) e
               = step w (Settle req now (Resolved result))
        end).
Proof.
  intros R M L T Tr.
  destruct (init_resolved_job w req now result params rest R M T)
    as (j & J & S1 & _ & _ & _ & _ & _ & _ & L' & _ & Tm).
  pose proof (reach_step _ _ _ w (Settle req now (Resolved result)) R) as R'.
  assert (M' : mounted (step w (Settle req now (Resolved result))) = true).
  { unfold Poller.step. rewrite commit_mounted. unfold Poller.handle. rewrite T.
    clear - M. destruct w as [m cj cp ii ar du ga il ifs er rf ed ts rq nx].
    cbn [mounted] in M. subst m. reflexivity. }
  set (w' := step w (Settle req now (Resolved result))) in *.
  rewrite L in L'.
  assert (S2 : job_status w' = VStr "GENERATING")
    by (unfold job_status; rewrite J; exact S1).
  split; [exact S2|]. split; [exact (Tm Tr)|].
  assert (G : generateDisabled w' = true)
    by (unfold generateDisabled; rewrite L'; reflexivity).
  assert (Fd : fetchDisabled w' = true)
    by (unfold fetchDisabled; rewrite L'; reflexivity).
  assert (C : clearDisabled w' = true)
    by (unfold clearDisabled; rewrite L', S2; reflexivity).
  split; [exact G|]. split; [exact Fd|]. split; [exact C|].
  intro e. destruct e; try exact I; apply step_noop; try assumption;
    unfold Poller.handle; rewrite ?L', ?G, ?Fd, ?C; reflexivity.
Qed.

(** X15.  When the start call fails, the error message is shown (the text
    "Failed to initiate video generation via backend." when the error has no
    message or an empty one), the busy flag is reset, and nothing else
    changes: no job is created and no timer is started or stopped. *)
Theorem start_failure_shows_error
  (w : World) (req : nat) (now : Z) (msg : option string) (params : obj)
  (rest : list (nat * Pending)) :
  reachable w -> mounted w = true ->
  take_request req (inflight w) = Some (PendingInit params, rest) ->
  error (step w (Settle req now (Threw msg)))
  = Some (message_or msg "Failed to initiate video generation via backend.")
  /\ (msg = None \/ msg = Some "" ->
      error (step w (Settle req now (Threw msg)))
      = Some "Failed to initiate video generation via backend.")
  /\ isLoading (step w (Settle req now (Threw msg))) = false
  /\ currentJob (step w (Settle req now (Threw msg))) = currentJob w
  /\ isFetchingStatus (step w (Settle req now (Threw msg))) = isFetchingStatus w
  /\ timers (step w (Settle req now (Threw msg))) = timers w
  /\ inflight (step w (Settle req now (Threw msg))) = rest.
Proof.
  intros R M T. pose proof (reachable_synced w R M) as Sy.
  assert (H : handle (Settle req now (Threw msg)) w
              = w |> withInflight rest
                  |> setError
                       (Some (message_or msg
                                "Failed to initiate video generation via backend."))
                  |> setIsLoading false).
  { unfold Poller.handle. rewrite T. reflexivity. }
  unfold Poller.step. rewrite H. clear H T.
  rewrite commit_unchanged.
  - destruct w as [m cj cp ii ar du ga il ifs er rf ed ts rq nx].
    cbn [mounted] in M. subst m. cbn.
    split; [reflexivity|]. split; [|repeat split].
    intros [->| ->]; reflexivity.
  - destruct w as [m cj cp ii ar du ga il ifs er rf ed ts rq nx].
    cbn [mounted] in M. subst m. exact Sy.
Qed.


(** X17.  A click on Generate does nothing at all while the busy flag is set
    or the prompt is blank (no request, no message).  Otherwise it drops the
    current job, sets the busy flag, clears the error and starts exactly one
    start call, which carries the values the form holds at that moment; the
    form itself is not changed. *)
Theorem generate_click_starts_one_call (w : World) :
  reachable w -> mounted w = true ->
  (generateDisabled w = true -> step w ClickGenerate = w)
  /\ (generateDisabled w = false ->
      inflight (step w ClickGenerate)
      = (inflight w ++ [(nextId w, PendingInit (generationParams w))])%list
      /\ cells (step w ClickGenerate)
         = (None, currentPrompt w, initialImage w, aspectRatio w, duration w,
            generateAudio w, true, isFetchingStatus w, None)).
Proof.
  intros R M. split.
  - intro G. apply step_noop; try assumption.
    unfold Poller.handle. rewrite G. reflexivity.
  - intro G. pose proof G as G'. unfold generateDisabled in G'.
    apply orb_false_elim in G'. destruct G' as [L B].
    unfold Poller.step. rewrite M. unfold Poller.handle. rewrite G.
    unfold handleInitiateVideo. rewrite B, L.
    destruct (commit_state
                (w |> setIsLoading true |> setError None |> setCurrentJob None
                   |> clearPollingInterval
                   |> call (PendingInit (generationParams w))))
      as (_ & _ & _ & _ & C5).
    rewrite C5, commit_cells. clear C5 R G B L.
    destruct w as [m cj cp ii ar du ga il ifs er [id|] ed ts rq nx];
      cbn [mounted] in M; subst m; split; reflexivity.
Qed.

(** X18.  Choosing a file never starts a request and never stores an image
    by itself: a file whose type does not start with "image/" only sets the
    error message; a file of an image type changes nothing until the reader
    has finished loading it. *)
Theorem upload_is_checked_locally (w : World) (fileType : string) :
  reachable w -> mounted w = true -> isLoading w = false ->
  (String.prefix "image/" fileType = true -> step w (UploadFile fileType) = w)
  /\ (String.prefix "image/" fileType = false ->
      error (step w (UploadFile fileType))
      = Some "Please upload a valid image file (JPEG, PNG, GIF, WEBP)."
      /\ initialImage (step w (UploadFile fileType)) = initialImage w
      /\ currentJob (step w (UploadFile fileType)) = currentJob w
      /\ inflight (step w (UploadFile fileType)) = inflight w
      /\ timers (step w (UploadFile fileType)) = timers w).
Proof.
  intros R M L. split.
  - intro P. apply step_noop; try assumption.
    unfold Poller.handle, handleImageUpload. rewrite L, P. reflexivity.
  - intro P. pose proof (reachable_synced w R M) as Sy.
    unfold Poller.step. rewrite M. unfold Poller.handle, handleImageUpload.
    rewrite L, P. rewrite commit_unchanged.
    + destruct w as [m cj cp ii ar du ga il ifs er rf ed ts rq nx].
      cbn [mounted] in M. subst m. cbn. repeat split.
    + destruct w as [m cj cp ii ar du ga il ifs er rf ed ts rq nx].
      cbn [mounted] in M. subst m. exact Sy.
Qed.

(** *** Request ids are fresh *)










(** *** Tearing the timer down *)




End Invariants.

End PollerProps.

(** ** The scenarios, evaluated *)

Module ScenarioProps.
Import Poller Scenario.

Lemma after_reachable (es : list Event) : reachable "16:9" 8 true (after es).
Proof. apply PollerProps.run_reachable, reach_mount. Qed.




(** The first scenario of the specification: the prompt "a cat" is submitted
    and the relay returns [op_1], the job is GENERATING; a poll that finds
    the operation not done makes it RUNNING; the next poll finds a response,
    the job is SUCCEEDED and no timer is left. *)
Example poll_until_succeeded :
  job_status (after started_op_1) = VStr "GENERATING"
  /\ Relay.sent (Relay.status "op_1" 2000 (Fulfilled operation_running))
     = Some (answer "RUNNING")
  /\ job_status (after (polling_op_1
                          ++ [Settle 3 2000 (fetchVideoStatus (answer "RUNNING"))]))
     = VStr "RUNNING"
  /\ job_status (after (polling_op_1
                          ++ [Settle 3 2000 (fetchVideoStatus (answer "RUNNING"));
                              Tick 6;
                              Settle 7 2000 (fetchVideoStatus (answer "SUCCEEDED"))]))
     = VStr "SUCCEEDED"
  /\ timers (after (polling_op_1
                      ++ [Settle 3 2000 (fetchVideoStatus (answer "RUNNING"));
                          Tick 6;
                          Settle 7 2000 (fetchVideoStatus (answer "SUCCEEDED"))]))
     = [].
Proof. vm_compute. repeat split. Qed.



(** C8, as stated, fails: with the job of [op_2] current, the late answer
    to the status request of [op_1] replaces it; and after a cancellation
    has cleared the job, the late answer brings the old job back and polling
    with it. *)
Lemma stale_response_overwrites_job :
  (exists j, currentJob (after polling_op_2) = Some j
             /\ job_get j "operationId" = VStr "op_2")
  /\ inflight (after polling_op_2)
     = [(6%nat, PendingPoll (VStr "op_1")); (12%nat, PendingPoll (VStr "op_2"))]
  /\ currentJob (next (after polling_op_2)
                   (Settle 6 3500 (Resolved (envelope "op_1" "RUNNING"))))
     = Some (mkJob 14 (envelope "op_1" "RUNNING"))
  /\ currentJob (after (polling_again ++ [ClickClear; Settle 8 2500 network_error]))
     = None
  /\ currentJob (after (polling_again
                          ++ [ClickClear; Settle 8 2500 network_error;
                              Settle 6 3500 (Resolved (envelope "op_1" "RUNNING"))]))
     = Some (mkJob 9 (envelope "op_1" "RUNNING"))
  /\ timers (after (polling_again
                      ++ [ClickClear; Settle 8 2500 network_error;
                          Settle 6 3500 (Resolved (envelope "op_1" "RUNNING"))]))
     <> [].
Proof.
  split; [eexists; split; vm_compute; reflexivity|].
  vm_compute. repeat split; discriminate.
Qed.

Lemma status_response_always_applied_witness :
  job_status (next (after polling_op_2)
                (Settle 6 3500 (Resolved (envelope "op_1" "RUNNING"))))
  = VStr "RUNNING".
Proof.
  assert (M : mounted (after polling_op_2) = true) by (vm_compute; reflexivity).
  assert (T : take_request 6 (inflight (after polling_op_2))
              = Some (PendingPoll (VStr "op_1"),
                      [(12%nat, PendingPoll (VStr "op_2"))]))
    by (vm_compute; reflexivity).
  exact (proj2 (PollerProps.status_response_always_applied "16:9" 8 true
                  (after polling_op_2) 6%nat 3500 (envelope "op_1" "RUNNING")
                  (PendingPoll (VStr "op_1")) [(12%nat, PendingPoll (VStr "op_2"))]
                  M T eq_refl)).
Defined.

(** C2.  Two status requests for the same job in flight at once.  The user
    starts a job, its poll fails once and is retried; with the retry in
    flight the user clears the job and starts a second one, whose first poll
    goes out; then the old request fails.  Its [finally] resets
    [isFetchingStatus], the effect re-creates the interval with the guard
    open, and the next tick polls [op_2] while the first poll of [op_2] is
    still pending.  Every click of the trace is on an enabled button. *)
Theorem overlapping_polls :
  clearDisabled (after polling_again) = false
  /\ generateDisabled
       (after (polling_again
                 ++ [ClickClear; Settle 8 2500 network_error; ChangePrompt "a dog"]))
     = false
  /\ inflight (after polling_op_2)
     = [(6%nat, PendingPoll (VStr "op_1")); (12%nat, PendingPoll (VStr "op_2"))]
  /\ isFetchingStatus (after polling_op_2) = true
  /\ isFetchingStatus (after stale_failure) = false
  /\ map timer_id (timers (after stale_failure)) = [14%nat]
  /\ inflight (next (after stale_failure) (Tick 14))
     = [(12%nat, PendingPoll (VStr "op_2")); (15%nat, PendingPoll (VStr "op_2"))]
  /\ polls_for "op_2" (next (after stale_failure) (Tick 14)) = [12%nat; 15%nat].
Proof. vm_compute. repeat split. Qed.

(** C7.  A transport failure of an automatic poll does not halt polling.
    The error is shown and the job keeps its status, but resetting
    [isFetchingStatus] in the [finally] re-runs the effect, which finds the
    job still pollable and creates a new interval; its next tick clears the
    error and polls again. *)
Theorem poll_failure_restarts_polling :
  inflight (after polling_op_1) = [(3%nat, PendingPoll (VStr "op_1"))]
  /\ error (after failed_once) = Some "Network Error"
  /\ job_status (after failed_once) = job_status (after polling_op_1)
  /\ isLoading (after failed_once) = false
  /\ pollingIntervalRef (after failed_once) = Some 5%nat
  /\ map timer_id (timers (after failed_once)) = [5%nat]
  /\ inflight (after failed_once) = []
  /\ inflight (next (after failed_once) (Tick 5))
     = [(6%nat, PendingPoll (VStr "op_1"))]
  /\ error (next (after failed_once) (Tick 5)) = None.
Proof. vm_compute. repeat split. Qed.

(** C4.  The relay's answer to a finished operation holds [id],
    [operationId] and [status] only; the result payload is dropped, and the
    job that results from the poll is SUCCEEDED with no [videoBase64]. *)
Theorem succeeded_job_has_no_video :
  Relay.sent (Relay.status "op_1" 2000 (Fulfilled operation_succeeded))
  = Some (answer "SUCCEEDED")
  /\ get (Relay.body (answer "SUCCEEDED")) "videoBase64" = VUndef
  /\ currentJob (next (after polling_op_1)
                   (Settle 3 2000 (fetchVideoStatus (answer "SUCCEEDED"))))
     = Some (mkJob 5 [("id", VStr "job_2000"); ("operationId", VStr "op_1");
                      ("status", VStr "SUCCEEDED")])
  /\ lookup "videoBase64"
       [("id", VStr "job_2000"); ("operationId", VStr "op_1");
        ("status", VStr "SUCCEEDED")] = VUndef
  /\ timers (next (after polling_op_1)
               (Settle 3 2000 (fetchVideoStatus (answer "SUCCEEDED")))) = [].
Proof. vm_compute. repeat split. Qed.

(** C5.  The relay reads the operation's [error] and never uses it: the
    answer to a failed operation is [{id, operationId, status: "FAILED"}], and
    the job that results from the poll is FAILED with no [errorMessage];
    polling stops. *)
Theorem failed_job_has_no_error_message :
  Relay.sent (Relay.status "op_1" 2000 (Fulfilled operation_failed))
  = Some (answer "FAILED")
  /\ get (Relay.body (answer "FAILED")) "errorMessage" = VUndef
  /\ currentJob (next (after polling_op_1)
                   (Settle 3 2000 (fetchVideoStatus (answer "FAILED"))))
     = Some (mkJob 5 [("id", VStr "job_2000"); ("operationId", VStr "op_1");
                      ("status", VStr "FAILED")])
  /\ lookup "errorMessage"
       [("id", VStr "job_2000"); ("operationId", VStr "op_1");
        ("status", VStr "FAILED")] = VUndef
  /\ error (next (after polling_op_1)
              (Settle 3 2000 (fetchVideoStatus (answer "FAILED")))) = None
  /\ timers (next (after polling_op_1)
               (Settle 3 2000 (fetchVideoStatus (answer "FAILED")))) = [].
Proof. vm_compute. repeat split. Qed.

(** *** Instances of the further properties *)

Ltac by_eval := vm_compute; reflexivity.

Lemma tick_guarded_witness :
  next (after polling_op_1) (Tick 4) = after polling_op_1.
Proof.
  assert (F : isFetchingStatus (after polling_op_1) = true) by by_eval.
  exact (PollerProps.tick_guarded "16:9" 8 true (after polling_op_1) 4%nat
           (after_reachable polling_op_1) F).
Defined.

Lemma tick_polls_current_job_witness :
  inflight (next (after started_op_1) (Tick 2))
  = (inflight (after started_op_1)
       ++ [(nextId (after started_op_1),
            PendingPoll (job_get job_op_1 "operationId"))])%list
  /\ job_get job_op_1 "operationId" = VStr "op_1".
Proof.
  assert (T : find_timer 2 (timers (after started_op_1)) = Some timer_2)
    by by_eval.
  assert (F : isFetchingStatus (after started_op_1) = false) by by_eval.
  assert (J : currentJob (after started_op_1) = Some job_op_1) by by_eval.
  destruct (PollerProps.tick_polls_current_job "16:9" 8 true
              (after started_op_1) 2%nat timer_2
              (after_reachable started_op_1) T F)
    as (j & Jj & _ & I & _).
  rewrite J in Jj. injection Jj as <-.
  split; [exact I | reflexivity].
Defined.

Lemma failed_poll_recreates_interval_witness :
  currentJob (next (after polling_op_1) (Settle 3 1500 network_error))
  = currentJob (after polling_op_1)
  /\ error (next (after polling_op_1) (Settle 3 1500 network_error))
     = Some (message_or (Some "Network Error")
               "Failed to fetch video status from backend.").
Proof.
  assert (M : mounted (after polling_op_1) = true) by by_eval.
  assert (F : isFetchingStatus (after polling_op_1) = true) by by_eval.
  assert (P : pollable (currentJob (after polling_op_1)) = true) by by_eval.
  assert (T : take_request 3 (inflight (after polling_op_1))
              = Some (PendingPoll (VStr "op_1"), [])) by by_eval.
  destruct (PollerProps.failed_poll_recreates_interval "16:9" 8 true
              (after polling_op_1) 3%nat 1500 (Some "Network Error") (VStr "op_1")
              [] (after_reachable polling_op_1) M F P T)
    as (A & B & _).
  split; [exact A | exact B].
Defined.

Lemma live_interval_polls_current_job_witness :
  mounted (after started_op_1) = true
  /\ currentJob (after started_op_1)
     = Some (cl_currentJob (timer_closure timer_2))
  /\ pollable (currentJob (after started_op_1)) = true.
Proof.
  assert (I : In timer_2 (timers (after started_op_1)))
    by (vm_compute; left; reflexivity).
  destruct (PollerProps.live_interval_polls_current_job "16:9" 8 true
              (after started_op_1) (after_reachable started_op_1))
    as (L & _).
  destruct (L timer_2 I) as (A & B & C & _).
  split; [exact A|]. split; [exact B | exact C].
Defined.

Lemma nothing_happens_after_unmount_witness :
  cells (next (after left_while_polling)
           (Settle 3 2000 (Resolved (envelope "op_1" "SUCCEEDED"))))
  = cells (after left_while_polling)
  /\ timers (next (after left_while_polling)
               (Settle 3 2000 (Resolved (envelope "op_1" "SUCCEEDED")))) = [].
Proof.
  assert (M : mounted (after left_while_polling) = false) by by_eval.
  destruct (PollerProps.nothing_happens_after_unmount "16:9" 8 true
              (after left_while_polling)
              (Settle 3 2000 (Resolved (envelope "op_1" "SUCCEEDED")))
              (after_reachable left_while_polling) M)
    as (A & B & _).
  split; [exact A | exact B].
Defined.

Lemma reset_restores_initial_state_witness :
  cells (next (after succeeded_op_1) ClickClear) = cells app.
Proof.
  assert (M : mounted (after succeeded_op_1) = true) by by_eval.
  assert (C : clearDisabled (after succeeded_op_1) = false) by by_eval.
  assert (P : pollable (currentJob (after succeeded_op_1)) = false) by by_eval.
  exact (proj1 (PollerProps.reset_restores_initial_state "16:9" 8 true
                  (after succeeded_op_1) M) C P).
Defined.

Lemma cancel_outcome_irrelevant_witness :
  next (next (after running_op_1) ClickClear) (Settle 10 2500 network_error)
  = next (next (after running_op_1) ClickClear) (Settle 10 2600 (Resolved [])).
Proof.
  assert (T : take_request 10 (inflight (next (after running_op_1) ClickClear))
              = Some (PendingCancel (VStr "op_1"), [])) by by_eval.
  exact (PollerProps.cancel_outcome_irrelevant "16:9" 8 true
           (next (after running_op_1) ClickClear) 10%nat 2500 2600
           network_error (Resolved []) (VStr "op_1") [] T).
Defined.

Lemma start_creates_generating_job_witness :
  exists j,
    currentJob (next (after submitted)
                  (Settle 0 1000 (Resolved [("operationId", VStr "op_1")])))
    = Some j
    /\ job_get j "status" = VStr "GENERATING"
    /\ job_get j "operationId" = VStr "op_1".
Proof.
  assert (M : mounted (after submitted) = true) by by_eval.
  assert (T : take_request 0 (inflight (after submitted))
              = Some (PendingInit cat_params, [])) by by_eval.
  destruct (PollerProps.start_creates_generating_job "16:9" 8 true
              (after submitted) 0%nat 1000 [("operationId", VStr "op_1")]
              cat_params [] (after_reachable submitted) M T)
    as (j & A & B & C & _).
  exists j. split; [exact A|]. split; [exact B | exact C].
Defined.

Lemma start_without_operation_id_locks_ui_witness :
  job_status (next (after submitted) (Settle 0 1000 (Resolved [])))
  = VStr "GENERATING"
  /\ timers (next (after submitted) (Settle 0 1000 (Resolved []))) = []
  /\ clearDisabled (next (after submitted) (Settle 0 1000 (Resolved []))) = true
  /\ next (next (after submitted) (Settle 0 1000 (Resolved []))) ClickClear
     = next (after submitted) (Settle 0 1000 (Resolved [])).
Proof.
  assert (M : mounted (after submitted) = true) by by_eval.
  assert (L : isLoading (after submitted) = true) by by_eval.
  assert (T : take_request 0 (inflight (after submitted))
              = Some (PendingInit cat_params, [])) by by_eval.
  destruct (PollerProps.start_without_operation_id_locks_ui "16:9" 8 true
              (after submitted) 0%nat 1000 [] cat_params []
              (after_reachable submitted) M L T eq_refl)
    as (A & B & _ & _ & C & D).
  split; [exact A|]. split; [exact B|]. split; [exact C|].
  exact (D ClickClear).
Defined.

Lemma start_failure_shows_error_witness :
  error (next (after submitted) (Settle 0 1000 (Threw None)))
  = Some "Failed to initiate video generation via backend."
  /\ isLoading (next (after submitted) (Settle 0 1000 (Threw None))) = false
  /\ currentJob (next (after submitted) (Settle 0 1000 (Threw None)))
     = currentJob (after submitted).
Proof.
  assert (M : mounted (after submitted) = true) by by_eval.
  assert (T : take_request 0 (inflight (after submitted))
              = Some (PendingInit cat_params, [])) by by_eval.
  destruct (PollerProps.start_failure_shows_error "16:9" 8 true
              (after submitted) 0%nat 1000 None cat_params []
              (after_reachable submitted) M T)
    as (_ & A & B & C & _).
  split; [exact (A (or_introl eq_refl))|]. split; [exact B | exact C].
Defined.


Lemma generate_click_starts_one_call_witness :
  inflight (next (after [ChangePrompt "a cat"]) ClickGenerate)
  = (inflight (after [ChangePrompt "a cat"])
       ++ [(nextId (after [ChangePrompt "a cat"]),
            PendingInit (generationParams (after [ChangePrompt "a cat"])))])%list
  /\ next app ClickGenerate = app.
Proof.
  assert (M : mounted (after [ChangePrompt "a cat"]) = true) by by_eval.
  assert (G : generateDisabled (after [ChangePrompt "a cat"]) = false) by by_eval.
  assert (M0 : mounted app = true) by by_eval.
  assert (G0 : generateDisabled app = true) by by_eval.
  split.
  - exact (proj1 (proj2 (PollerProps.generate_click_starts_one_call "16:9" 8 true
                           (after [ChangePrompt "a cat"])
                           (after_reachable [ChangePrompt "a cat"]) M) G)).
  - exact (proj1 (PollerProps.generate_click_starts_one_call "16:9" 8 true
                    app (reach_mount "16:9" 8 true) M0) G0).
Defined.

Lemma upload_is_checked_locally_witness :
  error (next app (UploadFile "application/pdf"))
  = Some "Please upload a valid image file (JPEG, PNG, GIF, WEBP)."
  /\ next app (UploadFile "image/png") = app.
Proof.
  assert (M : mounted app = true) by by_eval.
  assert (L : isLoading app = false) by by_eval.
  destruct (PollerProps.upload_is_checked_locally "16:9" 8 true app
              "application/pdf" (reach_mount "16:9" 8 true) M L) as [_ A].
  destruct (PollerProps.upload_is_checked_locally "16:9" 8 true app
              "image/png" (reach_mount "16:9" 8 true) M L) as [B _].
  split; [exact (proj1 (A eq_refl)) | exact (B eq_refl)].
Defined.

End ScenarioProps.
